(** * EmpireAPI: towers, users and the one-kilometre rule

    A shallow embedding of [app.py], the Flask/SQLAlchemy service that
    records users and the towers they own, together with the properties
    its specification states about it.

    Modelling conventions.
    - A Python float is the real number it denotes ([R]) and [haversine]
      is the function of lines 15-25 in exact arithmetic, the functions of
      [math] keeping their domain errors: [math.sqrt] raises [ValueError]
      below 0 and [math.asin] outside [-1, 1].  The double computation
      differs from it in the last digits: next to the limit of 1.0 it can
      fall on the other side, and for angles of astronomical size it can
      leave the domain of [math.asin].  Nothing below is stated about the
      rounding; the non-finite floats (nan, inf) are left out.
    - Python ints are unbounded ([Z]).  [float] raises [OverflowError] on
      an int that does not round to a finite double, and the database
      driver raises it on an int of more than 64 bits that it is given to
      bind.
    - An exception that no handler of [app.py] catches ends the request;
      Flask turns it into a 500 response.  The handlers return it as
      [Raise e].
    - The two tables are lists of rows in insertion order.  A fresh primary
      key is one more than the largest key of the table (the rowid rule of
      an [INTEGER PRIMARY KEY] column), 1 for an empty table.
    - A request body is what [request.get_json()] returned, when that is
      [None] or a dict.  The values under [latitude] and [longitude] are
      arbitrary JSON values, since the handler converts them itself with
      [float]; the value under [user_id] is an integer; the values under
      [first_name], [last_name] and [email] are strings or JSON [null]. *)

From Stdlib Require Import Reals Lra Lia ZArith List String Bool Permutation.
Import ListNotations.

Set Warnings "-register-all".

(** ** Exceptions and results *)

Inductive exn : Type :=
| ValueError
| TypeError
| KeyError
| AttributeError
| OverflowError
| IntegrityError.

Inductive result (A : Type) : Type :=
| Ok (a : A)
| Raise (e : exn).

Arguments Ok {A} a.
Arguments Raise {A} e.

Definition bind {A B : Type} (m : result A) (k : A -> result B) : result B :=
  match m with
  | Ok a => k a
  | Raise e => Raise e
  end.

Notation "x <- m ;; k" := (bind m (fun x => k))
  (at level 61, m at next level, right associativity).

(** ** The functions of Python's [math] module used by [haversine] *)

Module Math.

Definition radians (x : R) : R := (x * (PI / 180))%R.

Definition sqrt (x : R) : result R :=
  if Rlt_dec x 0 then Raise ValueError else Ok (R_sqrt.sqrt x).

Definition asin (x : R) : result R :=
  if Rlt_dec x (-1) then Raise ValueError
  else if Rlt_dec 1 x then Raise ValueError
  else Ok (Ratan.asin x).

End Math.

(** ** [haversine] (app.py, lines 15-25) *)

Definition haversine (lat1 lon1 lat2 lon2 : R) : result R :=
  let lat1 := Math.radians lat1 in
  let lon1 := Math.radians lon1 in
  let lat2 := Math.radians lat2 in
  let lon2 := Math.radians lon2 in
  let dlon := (lon2 - lon1)%R in
  let dlat := (lat2 - lat1)%R in
  let a := (sin (dlat / 2) ^ 2 + cos lat1 * cos lat2 * sin (dlon / 2) ^ 2)%R in
  s <- Math.sqrt a ;;
  t <- Math.asin s ;;
  let c := (2 * t)%R in
  let r := 6371%R in
  Ok (c * r)%R.

(** The term [a] of the formula, on angles already in radians. *)

Definition hav_a (p1 l1 p2 l2 : R) : R :=
  (sin ((p2 - p1) / 2) ^ 2 + cos p1 * cos p2 * sin ((l2 - l1) / 2) ^ 2)%R.

(** ** JSON values

    What [request.get_json()] yields for a field and what [jsonify]
    serialises. *)

Inductive json : Type :=
| JNull
| JBool (b : bool)
| JInt (z : Z)
| JFloat (r : R)
| JStr (s : string)
| JArr (l : list json)
| JObj (kv : list (string * json)).

Definition response : Type := (json * Z)%type.

(** [jsonify({"error": msg}), code] *)

Definition error (msg : string) (code : Z) : response :=
  (JObj [("error"%string, JStr msg)], code).

(** [j[key]] for a JSON object [j], nothing when [j] has no such key. *)

Definition json_field (key : string) (j : json) : option json :=
  match j with
  | JObj kv => option_map snd (find (fun p => String.eqb (fst p) key) kv)
  | _ => None
  end.

(** The integers the database driver takes as a parameter: those of 64
    bits.  Binding any other raises [OverflowError]. *)

Definition int64 (k : Z) : bool :=
  ((- 2 ^ 63 <=? k) && (k <? 2 ^ 63))%Z.

Definition bind_int (k : Z) : result Z :=
  if int64 k then Ok k else Raise OverflowError.

(** The ints [float] converts: those that round to a finite double.  On
    the others it raises [OverflowError]. *)

Definition fits_double (z : Z) : bool :=
  (Z.abs z <? 2 ^ 1024 - 2 ^ 970)%Z.

Definition Rleb (x y : R) : bool := if Rle_dec x y then true else false.
Definition Rltb (x y : R) : bool := if Rlt_dec x y then true else false.

(** ** The models (app.py, lines 27-57) *)

Module User.

Record t : Type := Build {
  id : Z;
  first_name : string;
  last_name : string;
  email : string
}.

Definition to_dict (self : t) : json :=
  JObj [("id"%string, JInt (id self));
        ("first_name"%string, JStr (first_name self));
        ("last_name"%string, JStr (last_name self));
        ("email"%string, JStr (email self))].

(** [User.query.get(k)] *)
Definition query_get (rows : list t) (k : Z) : result (option t) :=
  k <- bind_int k ;;
  Ok (find (fun u => Z.eqb (id u) k) rows).

(** [User.query.filter_by(email=e).first()] *)
Definition query_by_email (rows : list t) (e : string) : option t :=
  find (fun u => String.eqb (email u) e) rows.

(** The same for a value that may be [None]: the filter is then
    [email IS NULL], which no row meets, the column being NOT NULL. *)
Definition query_by_email_value (rows : list t) (v : option string) : option t :=
  match v with
  | Some e => query_by_email rows e
  | None => None
  end.

End User.

Module Tower.

Record t : Type := Build {
  id : Z;
  latitude : R;
  longitude : R;
  user_id : Z
}.

(** [self.user] is the relationship through the foreign key: the row of
    [user] whose key is [self.user_id], [None] when there is none, and
    then [self.user.to_dict()] raises [AttributeError]. *)
Definition to_dict (users : list User.t) (self : t) : result json :=
  owner <- User.query_get users (user_id self) ;;
  match owner with
  | None => Raise AttributeError
  | Some user =>
      Ok (JObj [("id"%string, JInt (id self));
                ("latitude"%string, JFloat (latitude self));
                ("longitude"%string, JFloat (longitude self));
                ("user_id"%string, JInt (user_id self));
                ("user"%string, User.to_dict user)])
  end.

(** [Tower.query.get(k)] *)
Definition query_get (rows : list t) (k : Z) : result (option t) :=
  k <- bind_int k ;;
  Ok (find (fun x => Z.eqb (id x) k) rows).

(** [Tower.query.filter_by(user_id=k).all()] *)
Definition query_by_user_id (rows : list t) (k : Z) : result (list t) :=
  k <- bind_int k ;;
  Ok (filter (fun x => Z.eqb (user_id x) k) rows).

End Tower.

(** ** The database *)

Record db : Type := Build_db {
  users : list User.t;
  towers : list Tower.t
}.

Definition empty_db : db := Build_db [] [].

(** The key given to a row inserted without one. *)

Definition next_id (ids : list Z) : Z :=
  (1 + fold_right Z.max 0 ids)%Z.

(** [db.session.add(row); db.session.commit()] for each table. *)

Definition add_user (d : db) (fn ln em : string) : User.t * db :=
  let row := User.Build (next_id (map User.id (users d))) fn ln em in
  (row, Build_db (users d ++ [row]) (towers d)).

Definition add_tower (d : db) (lat lon : R) (uid : Z) : Tower.t * db :=
  let row := Tower.Build (next_id (map Tower.id (towers d))) lat lon uid in
  (row, Build_db (users d) (towers d ++ [row])).

(** The same for a user whose fields may be [None]: the three columns are
    [nullable=False] (lines 30-32), so the commit of a [None] raises
    [IntegrityError] and stores nothing. *)

Definition insert_user (d : db) (fn ln em : option string) : result (User.t * db) :=
  match fn, ln, em with
  | Some fn, Some ln, Some em => Ok (add_user d fn ln em)
  | _, _, _ => Raise IntegrityError
  end.

(** [[x.to_dict() for x in rows]] *)

Fixpoint to_dicts (us : list User.t) (rows : list Tower.t) : result (list json) :=
  match rows with
  | [] => Ok []
  | x :: rest =>
      j <- Tower.to_dict us x ;;
      js <- to_dicts us rest ;;
      Ok (j :: js)
  end.

(** ** Request bodies *)

Module TowerData.

Record t : Type := Build {
  latitude : option json;
  longitude : option json;
  user_id : option Z
}.

(** [not data], for a dict: it has no key. *)
Definition empty (data : t) : bool :=
  match latitude data, longitude data, user_id data with
  | None, None, None => true
  | _, _, _ => false
  end.

End TowerData.

Module UserData.

(** Under each key: no entry, or the value, which is a string or JSON
    [null] ([None]). *)

Record t : Type := Build {
  first_name : option (option string);
  last_name : option (option string);
  email : option (option string)
}.

Definition empty (data : t) : bool :=
  match first_name data, last_name data, email data with
  | None, None, None => true
  | _, _, _ => false
  end.

End UserData.

(** [key not in data] and [data[key]], on the field of that key. *)

Definition missing {A : Type} (field : option A) : bool :=
  match field with
  | None => true
  | Some _ => false
  end.

Definition getitem {A : Type} (field : option A) : result A :=
  match field with
  | None => Raise KeyError
  | Some v => Ok v
  end.

(** ** The vocabulary of the claims *)

(** The body of a request that carries every field. *)

Definition tower_body (vlat vlon : json) (uid : Z) : option TowerData.t :=
  Some (TowerData.Build (Some vlat) (Some vlon) (Some uid)).

Definition user_body (fn ln em : string) : option UserData.t :=
  Some (UserData.Build (Some (Some fn)) (Some (Some ln)) (Some (Some em))).

(** The body is absent, or one of its fields is. *)

Definition tower_fields_absent (data : option TowerData.t) : Prop :=
  match data with
  | None => True
  | Some b =>
      TowerData.latitude b = None \/ TowerData.longitude b = None
      \/ TowerData.user_id b = None
  end.

Definition user_fields_absent (data : option UserData.t) : Prop :=
  match data with
  | None => True
  | Some b =>
      UserData.first_name b = None \/ UserData.last_name b = None
      \/ UserData.email b = None
  end.

Definition in_range (lat lon : R) : Prop :=
  (-90 <= lat <= 90 /\ -180 <= lon <= 180)%R.

(** The JSON representations as the specification words them: a user is
    [{id, first_name, last_name, email}], a tower is
    [{id, latitude, longitude, user_id, user}] with its owner under
    [user], an error is [{error}]. *)

Definition user_json_spec (u : User.t) : json :=
  JObj [("id"%string, JInt (User.id u));
        ("first_name"%string, JStr (User.first_name u));
        ("last_name"%string, JStr (User.last_name u));
        ("email"%string, JStr (User.email u))].

Definition tower_json_spec (owner : User.t) (x : Tower.t) : json :=
  JObj [("id"%string, JInt (Tower.id x));
        ("latitude"%string, JFloat (Tower.latitude x));
        ("longitude"%string, JFloat (Tower.longitude x));
        ("user_id"%string, JInt (Tower.user_id x));
        ("user"%string, user_json_spec owner)].

Definition error_json_spec (msg : string) : json :=
  JObj [("error"%string, JStr msg)].

(** ** The handlers *)

Section Handlers.

(** Python's [float] on a [str]: the number the text denotes, or nothing
    when it denotes none ([ValueError]). *)
Variable float_of_string : string -> option R.

(** [float(v)] for a JSON value [v]. *)

Definition float (v : json) : result R :=
  match v with
  | JNull => Raise TypeError
  | JBool b => Ok (if b then 1%R else 0%R)
  | JInt z => if fits_double z then Ok (IZR z) else Raise OverflowError
  | JFloat r => Ok r
  | JStr s =>
      match float_of_string s with
      | Some r => Ok r
      | None => Raise ValueError
      end
  | JArr _ => Raise TypeError
  | JObj _ => Raise TypeError
  end.

(** GET /towers (lines 64-67) *)

Definition get_towers (d : db) : result response :=
  js <- to_dicts (users d) (towers d) ;;
  Ok (JArr js, 200%Z).

(** GET /towers/<id> (lines 70-75) *)

Definition get_tower (d : db) (tower_id : Z) : result response :=
  found <- Tower.query_get (towers d) tower_id ;;
  match found with
  | Some tower =>
      j <- Tower.to_dict (users d) tower ;;
      Ok (j, 200%Z)
  | None => Ok (error "Tower not found" 404)
  end.

(** The loop of lines 98-100: [Ok true] when it returns the conflict,
    [Ok false] when it runs to its end. *)

Fixpoint tower_within_1km (rows : list Tower.t) (lat lon : R) : result bool :=
  match rows with
  | [] => Ok false
  | tower :: rest =>
      dist <- haversine (Tower.latitude tower) (Tower.longitude tower) lat lon ;;
      if Rltb dist 1 then Ok true else tower_within_1km rest lat lon
  end.

(** The [try] block of lines 84-90: the coordinates, or the response of
    the branch that returned. *)

Definition parse_coordinates (data : TowerData.t) : result (response + R * R) :=
  match (vlat <- getitem (TowerData.latitude data) ;;
         lat <- float vlat ;;
         vlon <- getitem (TowerData.longitude data) ;;
         lon <- float vlon ;;
         Ok (lat, lon)) with
  | Ok (lat, lon) =>
      if negb (Rleb (-90) lat && Rleb lat 90)
         || negb (Rleb (-180) lon && Rleb lon 180)
      then Ok (inl (error "Invalid GPS coordinates" 400))
      else Ok (inr (lat, lon))
  | Raise ValueError => Ok (inl (error "Latitude and longitude must be numbers" 400))
  | Raise TypeError => Ok (inl (error "Latitude and longitude must be numbers" 400))
  | Raise e => Raise e
  end.

(** POST /towers (lines 78-105) *)

Definition create_tower (d : db) (data : option TowerData.t) : result response * db :=
  match data with
  | None => (Ok (error "Missing latitude, longitude, or user_id" 400), d)
  | Some data =>
      if TowerData.empty data
         || missing (TowerData.latitude data)
         || missing (TowerData.longitude data)
         || missing (TowerData.user_id data)
      then (Ok (error "Missing latitude, longitude, or user_id" 400), d)
      else
        match parse_coordinates data with
        | Raise e => (Raise e, d)
        | Ok (inl resp) => (Ok resp, d)
        | Ok (inr (lat, lon)) =>
            match getitem (TowerData.user_id data) with
            | Raise e => (Raise e, d)
            | Ok uid =>
                match User.query_get (users d) uid with
                | Raise e => (Raise e, d)
                | Ok None => (Ok (error "User not found" 404), d)
                | Ok (Some _) =>
                    match tower_within_1km (towers d) lat lon with
                    | Raise e => (Raise e, d)
                    | Ok true =>
                        (Ok (error "Tower already exists within 1km" 400), d)
                    | Ok false =>
                        let (new_tower, d') := add_tower d lat lon uid in
                        (j <- Tower.to_dict (users d') new_tower ;;
                         Ok (j, 201%Z), d')
                    end
                end
            end
        end
  end.

(** POST /users (lines 108-125) *)

Definition create_user (d : db) (data : option UserData.t) : result response * db :=
  match data with
  | None => (Ok (error "Missing first_name, last_name, or email" 400), d)
  | Some data =>
      if UserData.empty data
         || missing (UserData.first_name data)
         || missing (UserData.last_name data)
         || missing (UserData.email data)
      then (Ok (error "Missing first_name, last_name, or email" 400), d)
      else
        match (em <- getitem (UserData.email data) ;;
               fn <- getitem (UserData.first_name data) ;;
               ln <- getitem (UserData.last_name data) ;;
               Ok (fn, ln, em)) with
        | Raise e => (Raise e, d)
        | Ok (fn, ln, em) =>
            match User.query_by_email_value (users d) em with
            | Some _ => (Ok (error "Email already exists" 400), d)
            | None =>
                match insert_user d fn ln em with
                | Raise e => (Raise e, d)
                | Ok (new_user, d') => (Ok (User.to_dict new_user, 201%Z), d')
                end
            end
        end
  end.

(** GET /users (lines 128-131) *)

Definition get_users (d : db) : result response :=
  Ok (JArr (map User.to_dict (users d)), 200%Z).

(** GET /users/<id> (lines 134-139) *)

Definition get_user (d : db) (user_id : Z) : result response :=
  found <- User.query_get (users d) user_id ;;
  match found with
  | Some user => Ok (User.to_dict user, 200%Z)
  | None => Ok (error "User not found" 404)
  end.

(** GET /users/<id>/towers (lines 142-147); the [print] writes the same
    list to the standard output and is not part of the response. *)

Definition get_towers_by_user_id (d : db) (user_id : Z) : result response :=
  rows <- Tower.query_by_user_id (towers d) user_id ;;
  js <- to_dicts (users d) rows ;;
  Ok (JArr js, 200%Z).

(** ** Requests and the states they lead to *)

Inductive request : Type :=
| PostUsers (data : option UserData.t)
| PostTowers (data : option TowerData.t).

Definition handle (d : db) (rq : request) : result response * db :=
  match rq with
  | PostUsers data => create_user d data
  | PostTowers data => create_tower d data
  end.

Definition run (d : db) (rqs : list request) : db :=
  fold_left (fun d rq => snd (handle d rq)) rqs d.

Definition reachable (d : db) : Prop :=
  exists rqs, d = run empty_db rqs.

Definition status (r : result response) : option Z :=
  match r with
  | Ok (_, code) => Some code
  | Raise _ => None
  end.

(** [float] raises one of the two exceptions that line 89 catches. *)

Definition not_a_number (v : json) : Prop :=
  float v = Raise ValueError \/ float v = Raise TypeError.

(** The coordinates that the [try] block answers with 400: the latitude
    is not a number, or it is and the longitude is not, or the two convert
    to a point outside [-90, 90] x [-180, 180]. *)

Definition bad_coordinates (vlat vlon : json) : Prop :=
  not_a_number vlat
  \/ (exists lat, float vlat = Ok lat /\ not_a_number vlon)
  \/ (exists lat lon,
        float vlat = Ok lat /\ float vlon = Ok lon /\ ~ in_range lat lon).

End Handlers.

(** ** Invariants of the database *)

(** A tower is [near] a point when [haversine] puts it less than one
    kilometre away, and [far] from it otherwise. *)

Definition near (tower : Tower.t) (lat lon : R) : Prop :=
  exists dist,
    haversine (Tower.latitude tower) (Tower.longitude tower) lat lon = Ok dist
    /\ (dist < 1)%R.

Definition far (tower : Tower.t) (lat lon : R) : Prop :=
  exists dist,
    haversine (Tower.latitude tower) (Tower.longitude tower) lat lon = Ok dist
    /\ (1 <= dist)%R.

Definition owners_exist (d : db) : Prop :=
  forall x, In x (towers d) ->
    exists u, User.query_get (users d) (Tower.user_id x) = Ok (Some u).

Fixpoint increasing (ids : list Z) : Prop :=
  match ids with
  | [] => True
  | k :: rest => Forall (fun k' => (k < k')%Z) rest /\ increasing rest
  end.

(** The towers of the store passed the range test of line 87. *)

Definition towers_checked (d : db) : Prop :=
  forall x, In x (towers d) ->
    in_range (Tower.latitude x) (Tower.longitude x).

(** What every reachable state satisfies: each tower has its owner, the
    keys of each table grow in insertion order, and each tower lies in
    range. *)

Definition consistent (d : db) : Prop :=
  owners_exist d
  /\ increasing (map User.id (users d))
  /\ increasing (map Tower.id (towers d))
  /\ towers_checked d.

(** ** A sample store

    The examples send their numbers as JSON numbers, so they run with a
    [float] that reads no string.  [sample_db] holds one user and one tower
    at (0, 0). *)

Definition no_strings : string -> option R := fun _ => None.

Definition sample_user : User.t := User.Build 1 "A" "B" "a@b.com".

Definition sample_tower : Tower.t := Tower.Build 1 0 0 1.

Definition sample_db : db := Build_db [sample_user] [sample_tower].

(** The scenario of the specification: one user, a tower at (10, 10), a
    second one some 60 m north of it, a third at (20, 20). *)

Definition scenario : list request :=
  [PostUsers (user_body "A" "B" "a@b.com");
   PostTowers (tower_body (JFloat 10) (JFloat 10) 1);
   PostTowers (tower_body (JFloat 10.0005) (JFloat 10) 1);
   PostTowers (tower_body (JFloat 20) (JFloat 20) 1)].

Definition scenario_db : db :=
  Build_db [sample_user] [Tower.Build 1 10 10 1; Tower.Build 2 20 20 1].

(** The store after one more request, POST /users for a second user. *)

Definition second_user : User.t := User.Build 2 "C" "D" "c@d.com".

Definition two_users_db : db :=
  Build_db [sample_user; second_user]
           [Tower.Build 1 10 10 1; Tower.Build 2 20 20 1].

(** The JSON of a tower of [sample_user]. *)

Definition owned_tower_json (k : Z) (lat lon : R) : json :=
  JObj [("id"%string, JInt k);
        ("latitude"%string, JFloat lat);
        ("longitude"%string, JFloat lon);
        ("user_id"%string, JInt 1);
        ("user"%string,
         JObj [("id"%string, JInt 1);
               ("first_name"%string, JStr "A");
               ("last_name"%string, JStr "B");
               ("email"%string, JStr "a@b.com")])].

(** ** Facts about the haversine term *)

Section HaversineTerm.

Local Open Scope R_scope.

Lemma sin_sq_bounds (x : R) : 0 <= sin x ^ 2 <= 1.
Proof.
  pose proof (SIN_bound x) as [Hl Hu].
  split; nra.
Qed.

Lemma cos_sq_bounds (x : R) : 0 <= cos x ^ 2 <= 1.
Proof.
  pose proof (COS_bound x) as [Hl Hu].
  split; nra.
Qed.

Lemma half_angle_product (p1 p2 : R) :
  sin ((p2 - p1) / 2) ^ 2 + cos p1 * cos p2 = cos ((p1 + p2) / 2) ^ 2.
Proof.
  replace ((p2 - p1) / 2) with (p2 / 2 - p1 / 2) by field.
  replace ((p1 + p2) / 2) with (p1 / 2 + p2 / 2) by field.
  replace (cos p1) with (cos (2 * (p1 / 2))) by (f_equal; field).
  replace (cos p2) with (cos (2 * (p2 / 2))) by (f_equal; field).
  rewrite sin_minus, cos_plus, !cos_2a.
  ring.
Qed.

Lemma hav_a_bounds (p1 l1 p2 l2 : R) : 0 <= hav_a p1 l1 p2 l2 <= 1.
Proof.
  unfold hav_a.
  pose proof (half_angle_product p1 p2) as Hh.
  pose proof (sin_sq_bounds ((p2 - p1) / 2)) as [Ha0 Ha1].
  pose proof (cos_sq_bounds ((p1 + p2) / 2)) as [Hb0 Hb1].
  pose proof (sin_sq_bounds ((l2 - l1) / 2)) as [Hs0 Hs1].
  set (A := sin ((p2 - p1) / 2) ^ 2) in *.
  set (B := cos ((p1 + p2) / 2) ^ 2) in *.
  set (s := sin ((l2 - l1) / 2) ^ 2) in *.
  replace (cos p1 * cos p2) with (B - A) by lra.
  split; nra.
Qed.

Lemma sqrt_unit (a : R) : 0 <= a <= 1 -> 0 <= R_sqrt.sqrt a <= 1.
Proof.
  intros [H0 H1]. split.
  - apply sqrt_pos.
  - rewrite <- sqrt_1. now apply sqrt_le_1_alt.
Qed.

Lemma haversine_unfold (lat1 lon1 lat2 lon2 : R) :
  haversine lat1 lon1 lat2 lon2 =
  Ok (2 * Ratan.asin (R_sqrt.sqrt
        (hav_a (Math.radians lat1) (Math.radians lon1)
               (Math.radians lat2) (Math.radians lon2))) * 6371).
Proof.
  unfold haversine.
  fold (hav_a (Math.radians lat1) (Math.radians lon1)
              (Math.radians lat2) (Math.radians lon2)).
  set (a := hav_a _ _ _ _).
  pose proof (hav_a_bounds (Math.radians lat1) (Math.radians lon1)
                (Math.radians lat2) (Math.radians lon2)) as Ha.
  fold a in Ha.
  pose proof (sqrt_unit a Ha) as Hs.
  unfold Math.sqrt.
  destruct (Rlt_dec a 0) as [Hneg | _]; [lra |].
  cbn [bind]. unfold Math.asin.
  destruct (Rlt_dec (R_sqrt.sqrt a) (-1)) as [Hlo | _]; [lra |].
  destruct (Rlt_dec 1 (R_sqrt.sqrt a)) as [Hhi | _]; [lra |].
  reflexivity.
Qed.

End HaversineTerm.

(** ** The distance calculator *)

Section Haversine.

Local Open Scope R_scope.

Lemma hav_a_sym (p1 l1 p2 l2 : R) : hav_a p1 l1 p2 l2 = hav_a p2 l2 p1 l1.
Proof.
  unfold hav_a.
  replace ((p2 - p1) / 2) with (- ((p1 - p2) / 2)) by field.
  replace ((l2 - l1) / 2) with (- ((l1 - l2) / 2)) by field.
  rewrite !sin_neg. ring.
Qed.

Lemma hav_a_same (p l : R) : hav_a p l p l = 0.
Proof.
  unfold hav_a.
  replace ((p - p) / 2) with 0 by field.
  replace ((l - l) / 2) with 0 by field.
  rewrite sin_0. ring.
Qed.

(** Approximations of pi good enough for the fixture. *)

Lemma PI_bounds : 313 / 100 < PI < 315 / 100.
Proof.
  pose proof (PI_2_3_7_ineq 0) as [Hlo _].
  pose proof (PI_2_3_7_ineq 1) as [_ Hhi].
  unfold sum_f_R0, tg_alt, PI_2_3_7_tg, Ratan_seq in Hlo, Hhi.
  simpl in Hlo, Hhi.
  split; lra.
Qed.

Lemma sqrt_sin_sq (x : R) : 0 <= x <= PI -> R_sqrt.sqrt (sin x ^ 2) = sin x.
Proof.
  intros [H0 H1].
  replace (sin x ^ 2) with (Rsqr (sin x)) by (unfold Rsqr; ring).
  apply sqrt_Rsqr. now apply sin_ge_0.
Qed.

Lemma haversine_one_degree : haversine 0 0 0 1 = Ok (6371 * PI / 180).
Proof.
  rewrite haversine_unfold. f_equal.
  pose proof PI_bounds as [Hlo Hhi].
  unfold hav_a, Math.radians.
  replace ((0 * (PI / 180) - 0 * (PI / 180)) / 2) with 0 by field.
  replace ((1 * (PI / 180) - 0 * (PI / 180)) / 2) with (PI / 360) by field.
  replace (0 * (PI / 180)) with 0 by field.
  rewrite sin_0, cos_0.
  replace (0 ^ 2 + 1 * 1 * sin (PI / 360) ^ 2) with (sin (PI / 360) ^ 2) by ring.
  rewrite sqrt_sin_sq by lra.
  rewrite asin_sin by lra.
  field.
Qed.

Lemma asin_le (u v : R) : -1 <= u -> u <= v -> v <= 1 -> Ratan.asin u <= Ratan.asin v.
Proof.
  intros Hu Huv Hv.
  destruct (Rle_lt_dec (Ratan.asin u) (Ratan.asin v)) as [Hle | Hlt];
    [exact Hle | exfalso].
  pose proof (asin_bound u) as [Hu1 Hu2].
  pose proof (asin_bound v) as [Hv1 Hv2].
  pose proof (sin_increasing_1 _ _ Hv1 Hv2 Hu1 Hu2 Hlt) as Hsin.
  rewrite !sin_asin in Hsin by lra.
  lra.
Qed.

(** Along a meridian the distance is the difference of the latitudes. *)

Lemma haversine_meridian (lat1 lat2 lon : R) :
  lat1 <= lat2 -> lat2 - lat1 <= 180 ->
  haversine lat1 lon lat2 lon = Ok (6371 * ((lat2 - lat1) * PI / 180)).
Proof.
  intros Hle Hhalf.
  rewrite haversine_unfold. f_equal.
  pose proof PI_RGT_0 as Hpi.
  unfold hav_a.
  replace ((Math.radians lon - Math.radians lon) / 2) with 0 by field.
  set (x := (Math.radians lat2 - Math.radians lat1) / 2).
  assert (Hx : x = (lat2 - lat1) * PI / 360).
  { unfold x, Math.radians. field. }
  assert (Hx0 : 0 <= x) by (rewrite Hx; nra).
  assert (Hx1 : x <= PI / 2) by (rewrite Hx; nra).
  rewrite sin_0.
  replace (sin x ^ 2 + cos (Math.radians lat1) * cos (Math.radians lat2) * 0 ^ 2)
    with (sin x ^ 2) by ring.
  rewrite sqrt_sin_sq by lra.
  rewrite asin_sin by lra.
  rewrite Hx. field.
Qed.

(** Between two points of latitude in [-90, 90] the distance is at least
    the difference of the latitudes. *)

Lemma haversine_latitude_bound (lat1 lon1 lat2 lon2 : R) :
  -90 <= lat1 -> lat1 <= lat2 -> lat2 <= 90 ->
  exists dist,
    haversine lat1 lon1 lat2 lon2 = Ok dist
    /\ 6371 * ((lat2 - lat1) * PI / 180) <= dist.
Proof.
  intros H1 Hle H2.
  rewrite haversine_unfold. eexists. split; [reflexivity |].
  pose proof PI_RGT_0 as Hpi.
  set (a := hav_a _ _ _ _).
  pose proof (hav_a_bounds (Math.radians lat1) (Math.radians lon1)
                (Math.radians lat2) (Math.radians lon2)) as Ha.
  fold a in Ha.
  set (x := (Math.radians lat2 - Math.radians lat1) / 2).
  assert (Hx : x = (lat2 - lat1) * PI / 360).
  { unfold x, Math.radians. field. }
  assert (Hx0 : 0 <= x) by (rewrite Hx; nra).
  assert (Hx1 : x <= PI / 2) by (rewrite Hx; nra).
  assert (Hc1 : 0 <= cos (Math.radians lat1)).
  { apply cos_ge_0; unfold Math.radians; nra. }
  assert (Hc2 : 0 <= cos (Math.radians lat2)).
  { apply cos_ge_0; unfold Math.radians; nra. }
  assert (Hlow : sin x ^ 2 <= a).
  { unfold a, hav_a. fold x.
    pose proof (sin_sq_bounds ((Math.radians lon2 - Math.radians lon1) / 2))
      as [Hs0 _].
    pose proof (Rmult_le_pos _ _ (Rmult_le_pos _ _ Hc1 Hc2) Hs0).
    lra. }
  assert (Hsin : sin x <= R_sqrt.sqrt a).
  { rewrite <- (sqrt_sin_sq x) by lra. now apply sqrt_le_1_alt. }
  pose proof (sqrt_unit a Ha) as [_ Hs1].
  assert (Hsx : 0 <= sin x) by (apply sin_ge_0; lra).
  pose proof (asin_le (sin x) (R_sqrt.sqrt a)) as Hmono.
  rewrite asin_sin in Hmono by lra.
  assert (Hxa : x <= Ratan.asin (R_sqrt.sqrt a)) by (apply Hmono; lra).
  rewrite Hx in Hxa. lra.
Qed.

(** C8. The distance from a point to itself is 0, the distance is
    symmetric in its two points, and the distance from (0,0) to (0,1) is
    within 0.5 km of 111.19 km. *)
Theorem haversine_zero_symmetric_fixture :
  (forall lat lon, haversine lat lon lat lon = Ok 0)
  /\ (forall lat1 lon1 lat2 lon2,
        haversine lat1 lon1 lat2 lon2 = haversine lat2 lon2 lat1 lon1)
  /\ (exists dist,
        haversine 0 0 0 1 = Ok dist /\ Rabs (dist - 111.19) <= 0.5).
Proof.
  split; [| split].
  - intros lat lon.
    rewrite haversine_unfold, hav_a_same, sqrt_0, asin_0.
    f_equal. ring.
  - intros lat1 lon1 lat2 lon2.
    rewrite !haversine_unfold.
    now rewrite hav_a_sym.
  - exists (6371 * PI / 180). split.
    + exact haversine_one_degree.
    + pose proof PI_bounds as [Hlo Hhi].
      apply Rabs_le. split; lra.
Qed.

End Haversine.

(** ** Keys and lookups *)

Section Lookups.

Local Open Scope Z_scope.

Lemma fold_max_ge (ids : list Z) (k : Z) :
  In k ids -> k <= fold_right Z.max 0 ids.
Proof.
  induction ids as [| x rest IH]; simpl; intros Hin.
  - contradiction.
  - destruct Hin as [-> | Hin]; [lia |].
    specialize (IH Hin). lia.
Qed.

Lemma next_id_gt (ids : list Z) (k : Z) : In k ids -> k < next_id ids.
Proof.
  intros Hin. unfold next_id.
  pose proof (fold_max_ge ids k Hin). lia.
Qed.

Lemma next_id_fresh (ids : list Z) : ~ In (next_id ids) ids.
Proof.
  intros Hin. apply next_id_gt in Hin. lia.
Qed.

Lemma find_snoc {A : Type} (f : A -> bool) (l : list A) (x : A) :
  find f (l ++ [x]) =
  match find f l with
  | Some y => Some y
  | None => if f x then Some x else None
  end.
Proof.
  induction l as [| y rest IH]; simpl.
  - reflexivity.
  - destruct (f y); [reflexivity | exact IH].
Qed.

Lemma increasing_snoc (ids : list Z) (k : Z) :
  increasing ids -> (forall k', In k' ids -> k' < k) -> increasing (ids ++ [k]).
Proof.
  induction ids as [| x rest IH]; simpl; intros Hinc Hlt.
  - split; [constructor | exact I].
  - destruct Hinc as [Hall Hrest]. split.
    + apply Forall_app. split; [exact Hall |].
      constructor; [apply Hlt; now left | constructor].
    + apply IH; [exact Hrest |]. intros k' Hk'. apply Hlt. now right.
Qed.

Lemma increasing_NoDup (ids : list Z) : increasing ids -> NoDup ids.
Proof.
  induction ids as [| x rest IH]; simpl; intros Hinc.
  - constructor.
  - destruct Hinc as [Hall Hrest]. constructor.
    + intros Hin. rewrite Forall_forall in Hall.
      specialize (Hall x Hin). lia.
    + now apply IH.
Qed.

(** Lookup by key, for any table whose keys are all different. *)

Lemma find_by_key {A : Type} (key : A -> Z) (rows : list A) (x : A) :
  NoDup (map key rows) -> In x rows ->
  find (fun y => Z.eqb (key y) (key x)) rows = Some x.
Proof.
  induction rows as [| y rest IH]; simpl; intros Hnd Hin.
  - contradiction.
  - inversion Hnd as [| ? ? Hnotin Hnd']; subst.
    destruct Hin as [-> | Hin].
    + now rewrite Z.eqb_refl.
    + destruct (Z.eqb_spec (key y) (key x)) as [Heq | _].
      * exfalso. apply Hnotin. rewrite Heq. now apply in_map.
      * now apply IH.
Qed.

Lemma find_by_key_none {A : Type} (key : A -> Z) (rows : list A) (k : Z) :
  find (fun y => Z.eqb (key y) k) rows = None <->
  (forall y, In y rows -> key y <> k).
Proof.
  split.
  - intros Hnone y Hin Heq.
    pose proof (find_none _ _ Hnone y Hin) as Hf. simpl in Hf.
    rewrite Heq, Z.eqb_refl in Hf. discriminate.
  - intros Hall.
    destruct (find _ rows) as [y |] eqn:Hfind; [| reflexivity].
    apply find_some in Hfind. destruct Hfind as [Hin Heq].
    apply Z.eqb_eq in Heq. now elim (Hall y Hin).
Qed.

Lemma find_by_key_some {A : Type} (key : A -> Z) (rows : list A) (k : Z) (x : A) :
  find (fun y => Z.eqb (key y) k) rows = Some x -> In x rows /\ key x = k.
Proof.
  intros Hfind. apply find_some in Hfind.
  destruct Hfind as [Hin Heq]. apply Z.eqb_eq in Heq. now split.
Qed.

Lemma query_by_email_none (rows : list User.t) (e : string) :
  User.query_by_email rows e = None <->
  (forall u, In u rows -> User.email u <> e).
Proof.
  unfold User.query_by_email. split.
  - intros Hnone u Hin Heq.
    pose proof (find_none _ _ Hnone u Hin) as Hf. simpl in Hf.
    rewrite Heq, String.eqb_refl in Hf. discriminate.
  - intros Hall.
    destruct (find _ rows) as [u |] eqn:Hfind; [| reflexivity].
    apply find_some in Hfind. destruct Hfind as [Hin Heq].
    apply String.eqb_eq in Heq. now elim (Hall u Hin).
Qed.

End Lookups.

(** ** The proximity scan *)

Section Scan.

Local Open Scope R_scope.

Lemma Rleb_true (x y : R) : Rleb x y = true <-> x <= y.
Proof. unfold Rleb. destruct (Rle_dec x y); split; intros; try easy. Qed.

Lemma Rltb_true (x y : R) : Rltb x y = true <-> x < y.
Proof. unfold Rltb. destruct (Rlt_dec x y); split; intros; try easy. Qed.

Lemma Rltb_false (x y : R) : Rltb x y = false <-> y <= x.
Proof.
  unfold Rltb. destruct (Rlt_dec x y); split; intros; try easy; lra.
Qed.

Lemma range_test (lat lon : R) :
  negb (Rleb (-90) lat && Rleb lat 90) || negb (Rleb (-180) lon && Rleb lon 180)
  = false <-> in_range lat lon.
Proof.
  unfold in_range.
  rewrite orb_false_iff, !negb_false_iff, !andb_true_iff, !Rleb_true.
  tauto.
Qed.

Lemma near_or_far (tower : Tower.t) (lat lon : R) :
  near tower lat lon \/ far tower lat lon.
Proof.
  unfold near, far. rewrite haversine_unfold.
  set (dist := 2 * _ * 6371).
  destruct (Rlt_dec dist 1) as [Hlt | Hge].
  - left. now exists dist.
  - right. exists dist. split; [reflexivity | lra].
Qed.

Lemma near_not_far (tower : Tower.t) (lat lon : R) :
  near tower lat lon -> far tower lat lon -> False.
Proof.
  intros [d1 [H1 Hlt]] [d2 [H2 Hge]].
  rewrite H1 in H2. injection H2 as ->. lra.
Qed.

Lemma near_same_point (tower : Tower.t) :
  near tower (Tower.latitude tower) (Tower.longitude tower).
Proof.
  exists 0. split; [| lra].
  rewrite haversine_unfold, hav_a_same, sqrt_0, asin_0.
  f_equal. ring.
Qed.

Lemma scan_step (tower : Tower.t) (rest : list Tower.t) (lat lon : R) :
  (near tower lat lon /\ tower_within_1km (tower :: rest) lat lon = Ok true)
  \/ (far tower lat lon /\
      tower_within_1km (tower :: rest) lat lon = tower_within_1km rest lat lon).
Proof.
  cbn [tower_within_1km].
  destruct (near_or_far tower lat lon) as [[dist [Hd Hlt]] | [dist [Hd Hge]]].
  - left. split; [now exists dist |].
    rewrite Hd. cbn [bind].
    apply Rltb_true in Hlt. now rewrite Hlt.
  - right. split; [now exists dist |].
    rewrite Hd. cbn [bind].
    apply Rltb_false in Hge. now rewrite Hge.
Qed.

Lemma scan_conflict (rows : list Tower.t) (lat lon : R) :
  (exists tower, In tower rows /\ near tower lat lon) ->
  tower_within_1km rows lat lon = Ok true.
Proof.
  induction rows as [| tower rest IH]; intros [x [Hin Hnear]].
  - contradiction.
  - destruct (scan_step tower rest lat lon) as [[_ Hs] | [Hfar Hs]].
    + exact Hs.
    + rewrite Hs. apply IH.
      destruct Hin as [-> | Hin].
      * elim (near_not_far _ _ _ Hnear Hfar).
      * now exists x.
Qed.

Lemma scan_clear (rows : list Tower.t) (lat lon : R) :
  (forall tower, In tower rows -> far tower lat lon) ->
  tower_within_1km rows lat lon = Ok false.
Proof.
  induction rows as [| tower rest IH]; intros Hall.
  - reflexivity.
  - destruct (scan_step tower rest lat lon) as [[Hnear _] | [_ Hs]].
    + elim (near_not_far _ _ _ Hnear). apply Hall. now left.
    + rewrite Hs. apply IH. intros x Hx. apply Hall. now right.
Qed.

Lemma scan_decides (rows : list Tower.t) (lat lon : R) :
  (exists tower, In tower rows /\ near tower lat lon)
  \/ (forall tower, In tower rows -> far tower lat lon).
Proof.
  induction rows as [| tower rest IH].
  - right. intros x [].
  - destruct (near_or_far tower lat lon) as [Hnear | Hfar].
    + left. exists tower. split; [now left | exact Hnear].
    + destruct IH as [[x [Hin Hnear]] | Hall].
      * left. exists x. split; [now right | exact Hnear].
      * right. intros x [<- | Hx]; [exact Hfar | now apply Hall].
Qed.

End Scan.

(** ** The handlers, branch by branch *)

Section Branches.

Variable float_of_string : string -> option R.

Lemma float_raises (v : json) (e : exn) :
  float float_of_string v = Raise e ->
  e = ValueError \/ e = TypeError \/ e = OverflowError.
Proof.
  destruct v; simpl; intros H; try discriminate;
    try (injection H as <-; now auto).
  - destruct (fits_double z); [discriminate |]. injection H as <-. auto.
  - destruct (float_of_string s); [discriminate |].
    injection H as <-. now left.
Qed.

Lemma parse_coordinates_ok (vlat vlon : json) (uid : Z) (lat lon : R) :
  float float_of_string vlat = Ok lat -> float float_of_string vlon = Ok lon -> in_range lat lon ->
  parse_coordinates float_of_string (TowerData.Build (Some vlat) (Some vlon) (Some uid))
  = Ok (inr (lat, lon)).
Proof.
  intros Hlat Hlon Hrange. unfold parse_coordinates.
  cbn [TowerData.latitude TowerData.longitude getitem bind].
  rewrite Hlat. cbn [bind]. rewrite Hlon. cbn [bind].
  apply range_test in Hrange. now rewrite Hrange.
Qed.

Lemma parse_coordinates_bad (vlat vlon : json) (uid : Z) :
  bad_coordinates float_of_string vlat vlon ->
  exists msg,
    parse_coordinates float_of_string (TowerData.Build (Some vlat) (Some vlon) (Some uid))
    = Ok (inl (error msg 400)).
Proof.
  intros Hbad. unfold parse_coordinates.
  cbn [TowerData.latitude TowerData.longitude getitem bind].
  destruct Hbad as [[H | H] | [[lat [Hlat [H | H]]] | [lat [lon [Hlat [Hlon Hout]]]]]].
  - rewrite H. now eexists.
  - rewrite H. now eexists.
  - rewrite Hlat. cbn [bind]. rewrite H. now eexists.
  - rewrite Hlat. cbn [bind]. rewrite H. now eexists.
  - rewrite Hlat. cbn [bind]. rewrite Hlon. cbn [bind].
    destruct (negb _ || negb _) eqn:Htest; [now eexists |].
    apply range_test in Htest. now elim Hout.
Qed.

(** The three ways out of the [try] block. *)

Lemma coordinates_decide (vlat vlon : json) (uid : Z) :
  bad_coordinates float_of_string vlat vlon
  \/ (exists lat lon,
        float float_of_string vlat = Ok lat
        /\ float float_of_string vlon = Ok lon /\ in_range lat lon)
  \/ parse_coordinates float_of_string
       (TowerData.Build (Some vlat) (Some vlon) (Some uid))
     = Raise OverflowError.
Proof.
  unfold parse_coordinates, bad_coordinates, not_a_number.
  cbn [TowerData.latitude TowerData.longitude getitem bind].
  destruct (float float_of_string vlat) as [lat | e1] eqn:Hlat; cbn [bind].
  - destruct (float float_of_string vlon) as [lon | e2] eqn:Hlon; cbn [bind].
    + destruct (negb (Rleb (-90) lat && Rleb lat 90)
                || negb (Rleb (-180) lon && Rleb lon 180)) eqn:Htest.
      * left. right. right. exists lat, lon. repeat split; try reflexivity.
        intros Hr. apply range_test in Hr. congruence.
      * right. left. exists lat, lon.
        split; [reflexivity | split; [reflexivity |]].
        now apply range_test.
    + destruct (float_raises _ _ Hlon) as [-> | [-> | ->]].
      * left. right. left. exists lat. auto.
      * left. right. left. exists lat. auto.
      * right. right. reflexivity.
  - destruct (float_raises _ _ Hlat) as [-> | [-> | ->]]; auto.
Qed.

Lemma create_tower_absent (d : db) (data : option TowerData.t) :
  tower_fields_absent data ->
  create_tower float_of_string d data
  = (Ok (error "Missing latitude, longitude, or user_id" 400), d).
Proof.
  destruct data as [[[vlat |] [vlon |] [uid |]] |]; simpl;
    intros Habs; try reflexivity.
  destruct Habs as [H | [H | H]]; discriminate H.
Qed.

Lemma tower_body_or_absent (data : option TowerData.t) :
  tower_fields_absent data
  \/ exists vlat vlon uid, data = tower_body vlat vlon uid.
Proof.
  destruct data as [[[vlat |] [vlon |] [uid |]] |]; simpl; auto 6.
  right. now exists vlat, vlon, uid.
Qed.

(** Past the presence test of line 81 the handler turns on what the
    [try] block gives. *)

Lemma create_tower_present (d : db) (vlat vlon : json) (uid : Z) :
  create_tower float_of_string d (tower_body vlat vlon uid) =
  match parse_coordinates float_of_string
          (TowerData.Build (Some vlat) (Some vlon) (Some uid)) with
  | Raise e => (Raise e, d)
  | Ok (inl resp) => (Ok resp, d)
  | Ok (inr (lat, lon)) =>
      match User.query_get (users d) uid with
      | Raise e => (Raise e, d)
      | Ok None => (Ok (error "User not found" 404), d)
      | Ok (Some _) =>
          match tower_within_1km (towers d) lat lon with
          | Raise e => (Raise e, d)
          | Ok true => (Ok (error "Tower already exists within 1km" 400), d)
          | Ok false =>
              (j <- Tower.to_dict (users d) (fst (add_tower d lat lon uid)) ;;
               Ok (j, 201%Z), snd (add_tower d lat lon uid))
          end
      end
  end.
Proof. reflexivity. Qed.

Lemma create_tower_bad (d : db) (vlat vlon : json) (uid : Z) :
  bad_coordinates float_of_string vlat vlon ->
  exists msg,
    create_tower float_of_string d (tower_body vlat vlon uid) = (Ok (error msg 400), d).
Proof.
  intros Hbad.
  destruct (parse_coordinates_bad vlat vlon uid Hbad) as [msg Hp].
  exists msg. rewrite create_tower_present. now rewrite Hp.
Qed.

(** Past the [try] block: what is left of the handler once the
    coordinates are in hand. *)

Lemma create_tower_checked (d : db) (vlat vlon : json) (uid : Z) (lat lon : R) :
  float float_of_string vlat = Ok lat -> float float_of_string vlon = Ok lon -> in_range lat lon ->
  create_tower float_of_string d (tower_body vlat vlon uid) =
  match User.query_get (users d) uid with
  | Raise e => (Raise e, d)
  | Ok None => (Ok (error "User not found" 404), d)
  | Ok (Some _) =>
      match tower_within_1km (towers d) lat lon with
      | Raise e => (Raise e, d)
      | Ok true => (Ok (error "Tower already exists within 1km" 400), d)
      | Ok false =>
          (j <- Tower.to_dict (users d) (fst (add_tower d lat lon uid)) ;;
           Ok (j, 201%Z), snd (add_tower d lat lon uid))
      end
  end.
Proof.
  intros Hlat Hlon Hrange.
  rewrite create_tower_present.
  now rewrite (parse_coordinates_ok vlat vlon uid lat lon Hlat Hlon Hrange).
Qed.

(** What the lookup of a key gives. *)

Lemma user_query_cases (rows : list User.t) (k : Z) :
  (int64 k = false /\ User.query_get rows k = Raise OverflowError)
  \/ (int64 k = true
      /\ User.query_get rows k
         = Ok (find (fun u => Z.eqb (User.id u) k) rows)).
Proof.
  unfold User.query_get, bind_int.
  destruct (int64 k); cbn [bind]; auto.
Qed.

Lemma tower_query_cases (rows : list Tower.t) (k : Z) :
  (int64 k = false /\ Tower.query_get rows k = Raise OverflowError)
  \/ (int64 k = true
      /\ Tower.query_get rows k
         = Ok (find (fun x => Z.eqb (Tower.id x) k) rows)).
Proof.
  unfold Tower.query_get, bind_int.
  destruct (int64 k); cbn [bind]; auto.
Qed.

Lemma user_query_some (rows : list User.t) (k : Z) (u : User.t) :
  User.query_get rows k = Ok (Some u) ->
  int64 k = true /\ In u rows /\ User.id u = k.
Proof.
  destruct (user_query_cases rows k) as [[_ ->] | [Hk ->]]; [discriminate |].
  intros H. injection H as H.
  apply (find_by_key_some User.id) in H. tauto.
Qed.

Lemma to_dict_owner (us : list User.t) (x : Tower.t) (u : User.t) :
  User.query_get us (Tower.user_id x) = Ok (Some u) ->
  Tower.to_dict us x
  = Ok (JObj [("id"%string, JInt (Tower.id x));
              ("latitude"%string, JFloat (Tower.latitude x));
              ("longitude"%string, JFloat (Tower.longitude x));
              ("user_id"%string, JInt (Tower.user_id x));
              ("user"%string, User.to_dict u)]).
Proof. intros Hu. unfold Tower.to_dict. now rewrite Hu. Qed.

Lemma to_dict_ok_owner (us : list User.t) (x : Tower.t) (j : json) :
  Tower.to_dict us x = Ok j ->
  exists u, User.query_get us (Tower.user_id x) = Ok (Some u).
Proof.
  unfold Tower.to_dict.
  destruct (User.query_get us (Tower.user_id x)) as [[u |] | e]; cbn [bind];
    try discriminate.
  intros _. now exists u.
Qed.

Lemma create_tower_outcome (d : db) (data : option TowerData.t) :
  (snd (create_tower float_of_string d data) = d
   /\ (status (fst (create_tower float_of_string d data)) = Some 400%Z
       \/ status (fst (create_tower float_of_string d data)) = Some 404%Z
       \/ fst (create_tower float_of_string d data) = Raise OverflowError))
  \/ (exists vlat vlon lat lon uid u j,
        data = tower_body vlat vlon uid
        /\ float float_of_string vlat = Ok lat
        /\ float float_of_string vlon = Ok lon
        /\ in_range lat lon
        /\ User.query_get (users d) uid = Ok (Some u)
        /\ (forall tower, In tower (towers d) -> far tower lat lon)
        /\ Tower.to_dict (users d) (fst (add_tower d lat lon uid)) = Ok j
        /\ create_tower float_of_string d data
           = (Ok (j, 201%Z), snd (add_tower d lat lon uid))).
Proof.
  destruct (tower_body_or_absent data) as [Habs | [vlat [vlon [uid ->]]]].
  { left. rewrite (create_tower_absent d data Habs). simpl. auto. }
  destruct (coordinates_decide vlat vlon uid)
    as [Hbad | [[lat [lon [Hlat [Hlon Hr]]]] | Hover]].
  { left. destruct (create_tower_bad d vlat vlon uid Hbad) as [msg ->]. simpl. auto. }
  2:{ left. rewrite create_tower_present, Hover. simpl. auto. }
  rewrite (create_tower_checked d vlat vlon uid lat lon Hlat Hlon Hr).
  destruct (user_query_cases (users d) uid) as [[_ Hq] | [Hk Hq]].
  { left. rewrite Hq. simpl. auto. }
  destruct (User.query_get (users d) uid) as [[u |] | e] eqn:Hu.
  3:{ discriminate Hq. }
  2:{ left. simpl. auto. }
  destruct (scan_decides (towers d) lat lon) as [Hnear | Hfar].
  { left. rewrite (scan_conflict _ _ _ Hnear). simpl. auto. }
  right. rewrite (scan_clear _ _ _ Hfar).
  assert (Hj : exists j,
             Tower.to_dict (users d) (fst (add_tower d lat lon uid)) = Ok j).
  { rewrite (to_dict_owner _ _ u); [now eexists |].
    cbn [add_tower fst Tower.user_id]. exact Hu. }
  destruct Hj as [j Hj].
  exists vlat, vlon, lat, lon, uid, u, j.
  rewrite Hj. cbn [bind].
  repeat (split; [first [assumption | reflexivity] |]).
  reflexivity.
Qed.

Lemma create_user_absent (d : db) (data : option UserData.t) :
  user_fields_absent data ->
  create_user d data
  = (Ok (error "Missing first_name, last_name, or email" 400), d).
Proof.
  destruct data as [[[fn |] [ln |] [em |]] |]; simpl;
    intros Habs; try reflexivity.
  destruct Habs as [H | [H | H]]; discriminate H.
Qed.

Lemma user_fields_or_absent (data : option UserData.t) :
  user_fields_absent data
  \/ exists fn ln em,
       data = Some (UserData.Build (Some fn) (Some ln) (Some em)).
Proof.
  destruct data as [[[fn |] [ln |] [em |]] |]; simpl; auto 6.
  right. now exists fn, ln, em.
Qed.

Lemma create_user_present (d : db) (fn ln em : option string) :
  create_user d (Some (UserData.Build (Some fn) (Some ln) (Some em))) =
  match User.query_by_email_value (users d) em with
  | Some _ => (Ok (error "Email already exists" 400), d)
  | None =>
      match insert_user d fn ln em with
      | Raise e => (Raise e, d)
      | Ok (new_user, d') => (Ok (User.to_dict new_user, 201%Z), d')
      end
  end.
Proof. reflexivity. Qed.

Lemma create_user_checked (d : db) (fn ln em : string) :
  create_user d (user_body fn ln em) =
  match User.query_by_email (users d) em with
  | Some _ => (Ok (error "Email already exists" 400), d)
  | None =>
      (Ok (User.to_dict (fst (add_user d fn ln em)), 201%Z),
       snd (add_user d fn ln em))
  end.
Proof. reflexivity. Qed.

Lemma create_user_outcome (d : db) (data : option UserData.t) :
  (snd (create_user d data) = d
   /\ (status (fst (create_user d data)) = Some 400%Z
       \/ fst (create_user d data) = Raise IntegrityError))
  \/ (exists fn ln em,
        data = user_body fn ln em
        /\ (forall u, In u (users d) -> User.email u <> em)
        /\ create_user d data
           = (Ok (User.to_dict (fst (add_user d fn ln em)), 201%Z),
              snd (add_user d fn ln em))).
Proof.
  destruct (user_fields_or_absent data) as [Habs | [fn [ln [em ->]]]].
  { left. rewrite (create_user_absent d data Habs). simpl. auto. }
  rewrite create_user_present.
  destruct (User.query_by_email_value (users d) em) as [u |] eqn:Hq.
  { left. simpl. auto. }
  destruct fn as [fn |], ln as [ln |], em as [em |];
    try (left; simpl; now auto).
  right. exists fn, ln, em.
  split; [reflexivity |]. split; [| reflexivity].
  now apply query_by_email_none.
Qed.

End Branches.

(** ** Invariants of the reachable states *)

Section Reachable.

Variable float_of_string : string -> option R.

Lemma run_snoc (d : db) (rqs : list request) (rq : request) :
  run float_of_string d (rqs ++ [rq])
  = snd (handle float_of_string (run float_of_string d rqs) rq).
Proof. unfold run. now rewrite fold_left_app. Qed.

Lemma reachable_ind (P : db -> Prop) :
  P empty_db ->
  (forall d rq, reachable float_of_string d -> P d ->
                P (snd (handle float_of_string d rq))) ->
  forall d, reachable float_of_string d -> P d.
Proof.
  intros Hempty Hstep d [rqs ->].
  induction rqs as [| rq rqs IH] using rev_ind.
  - exact Hempty.
  - rewrite run_snoc. apply Hstep; [now exists rqs | exact IH].
Qed.

Lemma reachable_step (d : db) (rq : request) :
  reachable float_of_string d ->
  reachable float_of_string (snd (handle float_of_string d rq)).
Proof.
  intros [rqs ->]. exists (rqs ++ [rq]). now rewrite run_snoc.
Qed.

Lemma owner_kept (rows : list User.t) (u : User.t) (k : Z) :
  (exists x, User.query_get rows k = Ok (Some x)) ->
  exists x, User.query_get (rows ++ [u]) k = Ok (Some x).
Proof.
  intros [x Hx]. exists x.
  destruct (user_query_cases rows k) as [[_ Hq] | [Hk Hq]];
    rewrite Hq in Hx; [discriminate |].
  injection Hx as Hx.
  destruct (user_query_cases (rows ++ [u]) k) as [[Hk' _] | [_ ->]];
    [congruence |].
  now rewrite find_snoc, Hx.
Qed.

Lemma consistent_empty : consistent empty_db.
Proof.
  unfold consistent, owners_exist, towers_checked. simpl.
  split; [intros x [] | split; [exact I | split; [exact I | intros x []]]].
Qed.

Lemma consistent_create_user (d : db) (data : option UserData.t) :
  consistent d -> consistent (snd (create_user d data)).
Proof.
  intros Hc.
  destruct (create_user_outcome d data) as [[-> _] | [fn [ln [em [_ [_ ->]]]]]];
    [exact Hc |].
  destruct Hc as [Hown [Hu [Ht Hin]]].
  cbn [snd add_user].
  split; [| split; [| split]]; cbn [users towers]; try assumption.
  - intros x Hx. cbn [towers] in Hx. cbn [users]. apply owner_kept.
    now apply Hown.
  - rewrite map_app. cbn [map User.id]. apply increasing_snoc; [exact Hu |].
    intros k' Hk'. now apply next_id_gt.
Qed.

Lemma consistent_create_tower (d : db) (data : option TowerData.t) :
  consistent d -> consistent (snd (create_tower float_of_string d data)).
Proof.
  intros Hc.
  destruct (create_tower_outcome float_of_string d data)
    as [[-> _] | [vlat [vlon [lat [lon [uid [u [j H]]]]]]]]; [exact Hc |].
  destruct H as [_ [_ [_ [Hr [Hu [Hfar [_ ->]]]]]]].
  destruct Hc as [Hown [Hus [Hts Hin]]].
  cbn [snd add_tower].
  split; [| split; [| split]]; cbn [users towers]; try assumption.
  - intros x Hx. cbn [towers] in Hx. apply in_app_or in Hx.
    destruct Hx as [Hx | [<- | []]].
    + now apply Hown.
    + cbn [Tower.user_id users]. now exists u.
  - rewrite map_app. cbn [map Tower.id]. apply increasing_snoc; [exact Hts |].
    intros k' Hk'. now apply next_id_gt.
  - intros x Hx. cbn [towers] in Hx. apply in_app_or in Hx.
    destruct Hx as [Hx | [<- | []]].
    + now apply Hin.
    + exact Hr.
Qed.

Lemma reachable_consistent (d : db) :
  reachable float_of_string d -> consistent d.
Proof.
  apply reachable_ind.
  - exact consistent_empty.
  - intros d' [data | data] _ Hc; cbn [handle].
    + now apply consistent_create_user.
    + now apply consistent_create_tower.
Qed.

End Reachable.

(** ** Serialising rows *)

Section Serialising.

Lemma owner_found (rows : list User.t) (u : User.t) :
  In u rows -> int64 (User.id u) = true ->
  exists x, User.query_get rows (User.id u) = Ok (Some x)
            /\ In x rows /\ User.id x = User.id u.
Proof.
  intros Hin Hk.
  destruct (user_query_cases rows (User.id u)) as [[Hk' _] | [_ ->]];
    [congruence |].
  destruct (find _ rows) as [x |] eqn:Hfind.
  - exists x. split; [reflexivity |].
    now apply (find_by_key_some User.id) in Hfind.
  - pose proof (proj1 (find_by_key_none User.id rows (User.id u)) Hfind) as Hno.
    now elim (Hno u Hin).
Qed.

Lemma to_dicts_spec (us : list User.t) (rows : list Tower.t) :
  (forall x, In x rows ->
     exists u, User.query_get us (Tower.user_id x) = Ok (Some u)) ->
  exists js,
    to_dicts us rows = Ok js
    /\ Forall2 (fun x j => Tower.to_dict us x = Ok j) rows js.
Proof.
  induction rows as [| x rest IH]; intros Hown.
  - exists []. split; [reflexivity | constructor].
  - destruct IH as [js [Hjs Hall]].
    { intros y Hy. apply Hown. now right. }
    destruct (Hown x (or_introl eq_refl)) as [u Hu].
    assert (Hx : exists j, Tower.to_dict us x = Ok j).
    { rewrite (to_dict_owner _ _ u Hu). now eexists. }
    destruct Hx as [j Hj].
    exists (j :: js). split.
    + cbn [to_dicts]. rewrite Hj. cbn [bind]. rewrite Hjs. reflexivity.
    + now constructor.
Qed.

Lemma to_dicts_image (us : list User.t) (rows : list Tower.t) (js : list json) :
  Forall2 (fun x j => Tower.to_dict us x = Ok j) rows js ->
  forall j, In j js <-> exists x, In x rows /\ Tower.to_dict us x = Ok j.
Proof.
  induction 1 as [| x j0 rows js Hx Hall IH]; intros j; simpl.
  - split; [intros [] | intros [x [[] _]]].
  - rewrite IH. split.
    + intros [<- | [y [Hin Hy]]].
      * exists x. auto.
      * exists y. auto.
    + intros [y [[<- | Hin] Hy]].
      * left. rewrite Hx in Hy. now injection Hy.
      * right. now exists y.
Qed.

End Serialising.

(** ** The properties of the specification *)

Section Claims.

Variable float_of_string : string -> option R.

Lemma too_large_for_float (z : Z) :
  (2 ^ 1024 - 2 ^ 970 <= z)%Z -> fits_double z = false.
Proof.
  intros Hz. unfold fits_double. apply Z.ltb_ge.
  rewrite Z.abs_eq; [exact Hz |].
  assert (0 <= 2 ^ 1024 - 2 ^ 970)%Z by (apply Z.leb_le; vm_compute; reflexivity).
  lia.
Qed.

Lemma too_large_for_key (k : Z) : (2 ^ 63 <= k)%Z -> int64 k = false.
Proof.
  intros Hk. unfold int64. apply andb_false_iff. right.
  now apply Z.ltb_ge.
Qed.

(** C3. Where the claim has 400 for a latitude that is no number in
    range, the handler lets an exception through: for a latitude that is
    an int too large for a double, [float] raises [OverflowError], line 89
    catches only [ValueError] and [TypeError], and the request ends in the
    uncaught exception, whatever the store, the longitude and the
    [user_id]. *)
Theorem create_tower_uncaught_overflow (d : db) (z : Z) (vlon : json) (uid : Z) :
  (2 ^ 1024 - 2 ^ 970 <= z)%Z ->
  create_tower float_of_string d (tower_body (JInt z) vlon uid)
  = (Raise OverflowError, d).
Proof.
  intros Hz. rewrite create_tower_present.
  unfold parse_coordinates.
  cbn [TowerData.latitude TowerData.longitude getitem bind float].
  rewrite (too_large_for_float z Hz). reflexivity.
Qed.

(** C5. Where the claim has 201 for a request whose three fields are
    present and whose email is no stored email, the handler lets an
    exception through when the email is JSON [null]: the key passes the
    test of line 111, no row has a NULL email, and the commit of the row
    raises [IntegrityError], the column being [nullable=False]; nothing is
    stored. *)
Theorem create_user_null_email (d : db) (fn ln : string) :
  create_user d
    (Some (UserData.Build (Some (Some fn)) (Some (Some ln)) (Some None)))
  = (Raise IntegrityError, d).
Proof. reflexivity. Qed.

(** C6. Where the claim has 200 and an empty array for the id of no
    user, GET /users/<id>/towers ends in an uncaught [OverflowError] for
    every id from 2^63 up: the driver cannot bind the id to the filter. *)
Theorem towers_of_user_uncaught_overflow (d : db) (k : Z) :
  (2 ^ 63 <= k)%Z -> get_towers_by_user_id d k = Raise OverflowError.
Proof.
  intros Hk. unfold get_towers_by_user_id, Tower.query_by_user_id, bind_int.
  now rewrite (too_large_for_key k Hk).
Qed.

(** C7. Where the claim has 404 for the id of no row, GET /towers/<id>
    and GET /users/<id> end in an uncaught [OverflowError] for every id
    from 2^63 up: the driver cannot bind the id to the lookup. *)
Theorem fetch_by_id_uncaught_overflow (d : db) (k : Z) :
  (2 ^ 63 <= k)%Z ->
  get_tower d k = Raise OverflowError /\ get_user d k = Raise OverflowError.
Proof.
  intros Hk.
  unfold get_tower, get_user, Tower.query_get, User.query_get, bind_int.
  now rewrite (too_large_for_key k Hk).
Qed.

(** C9. In every state reached from the empty store the keys of the users
    are pairwise different and so are the keys of the towers, each table
    holds its keys in strictly increasing order of creation, and each
    successful POST gives the new row a key strictly greater than every
    key of its table. *)
Theorem ids_unique_and_monotonic (d : db) :
  reachable float_of_string d ->
  NoDup (map User.id (users d))
  /\ NoDup (map Tower.id (towers d))
  /\ increasing (map User.id (users d))
  /\ increasing (map Tower.id (towers d))
  /\ (forall data j,
        fst (create_user d data) = Ok (j, 201%Z) ->
        exists new_user,
          users (snd (create_user d data)) = users d ++ [new_user]
          /\ j = User.to_dict new_user
          /\ forall u, In u (users d) -> (User.id u < User.id new_user)%Z)
  /\ (forall data j,
        fst (create_tower float_of_string d data) = Ok (j, 201%Z) ->
        exists new_tower,
          towers (snd (create_tower float_of_string d data))
          = towers d ++ [new_tower]
          /\ Tower.to_dict (users d) new_tower = Ok j
          /\ forall tower, In tower (towers d) ->
                           (Tower.id tower < Tower.id new_tower)%Z).
Proof.
  intros Hd.
  destruct (reachable_consistent float_of_string d Hd) as [_ [Hus [Hts _]]].
  repeat apply conj; try assumption; try now apply increasing_NoDup.
  - intros data j Hcreated.
    destruct (create_user_outcome d data)
      as [[_ Hst] | [fn [ln [em [_ [_ Heq]]]]]].
    { rewrite Hcreated in Hst. destruct Hst as [Hst | Hst]; discriminate Hst. }
    rewrite Heq in Hcreated |- *. cbn [fst snd add_user users] in *.
    eexists. split; [reflexivity |]. split.
    + now injection Hcreated.
    + intros u Hu. cbn [User.id]. apply next_id_gt. now apply in_map.
  - intros data j Hcreated.
    destruct (create_tower_outcome float_of_string d data)
      as [[_ Hst] | [vlat [vlon [lat [lon [uid [u [j' H]]]]]]]].
    { rewrite Hcreated in Hst.
      destruct Hst as [Hst | [Hst | Hst]]; discriminate Hst. }
    destruct H as [_ [_ [_ [_ [_ [_ [Hj Heq]]]]]]].
    rewrite Heq in Hcreated |- *. cbn [fst snd add_tower towers] in *.
    eexists. split; [reflexivity |]. split.
    + injection Hcreated as <-. exact Hj.
    + intros tower Hin. cbn [Tower.id]. apply next_id_gt. now apply in_map.
Qed.

(** C10. A POST /towers or POST /users that answers 400 or 404 leaves the
    store exactly as it was. *)
Theorem errors_leave_store_unchanged (d : db) :
  (forall data,
      status (fst (create_tower float_of_string d data)) = Some 400%Z
      \/ status (fst (create_tower float_of_string d data)) = Some 404%Z ->
      snd (create_tower float_of_string d data) = d)
  /\ (forall data,
        status (fst (create_user d data)) = Some 400%Z
        \/ status (fst (create_user d data)) = Some 404%Z ->
        snd (create_user d data) = d).
Proof.
  split.
  - intros data Hst.
    destruct (create_tower_outcome float_of_string d data)
      as [[Hsame _] | [vlat [vlon [lat [lon [uid [u [j H]]]]]]]];
      [exact Hsame |].
    destruct H as [_ [_ [_ [_ [_ [_ [_ Heq]]]]]]].
    rewrite Heq in Hst. simpl in Hst.
    destruct Hst as [Hst | Hst]; discriminate Hst.
  - intros data Hst.
    destruct (create_user_outcome d data)
      as [[Hsame _] | [fn [ln [em [_ [_ Heq]]]]]]; [exact Hsame |].
    rewrite Heq in Hst. simpl in Hst.
    destruct Hst as [Hst | Hst]; discriminate Hst.
Qed.

End Claims.

(** ** The properties at work on a sample store *)

Section Samples.

Local Open Scope R_scope.

(** The scenario of the specification, request by request. *)

Lemma scenario_second_tower_near :
  near (Tower.Build 1 10 10 1) 10.0005 10.
Proof.
  exists (6371 * ((10.0005 - 10) * PI / 180)). split.
  - apply haversine_meridian; lra.
  - pose proof PI_bounds as [Hlo Hhi]. lra.
Qed.

Lemma scenario_third_tower_far :
  far (Tower.Build 1 10 10 1) 20 20.
Proof.
  destruct (haversine_latitude_bound 10 10 20 20) as [dist [Hd Hge]]; try lra.
  exists dist. split; [exact Hd |].
  pose proof PI_bounds as [Hlo Hhi]. lra.
Qed.

Lemma scenario_steps :
  let d1 := Build_db [sample_user] [] in
  let d2 := Build_db [sample_user] [Tower.Build 1 10 10 1] in
  create_user empty_db (user_body "A" "B" "a@b.com")
  = (Ok (User.to_dict sample_user, 201%Z), d1)
  /\ create_tower no_strings d1 (tower_body (JFloat 10) (JFloat 10) 1)
     = (Ok (owned_tower_json 1 10 10, 201%Z), d2)
  /\ create_tower no_strings d2 (tower_body (JFloat 10.0005) (JFloat 10) 1)
     = (Ok (error "Tower already exists within 1km" 400), d2)
  /\ create_tower no_strings d2 (tower_body (JFloat 20) (JFloat 20) 1)
     = (Ok (owned_tower_json 2 20 20, 201%Z), scenario_db)
  /\ get_towers_by_user_id scenario_db 1
     = Ok (JArr [owned_tower_json 1 10 10; owned_tower_json 2 20 20], 200%Z).
Proof.
  intros d1 d2.
  assert (Hr : forall lat lon, 10 <= lat <= 20 -> 10 <= lon <= 20 ->
                               in_range lat lon).
  { intros lat lon [? ?] [? ?]. unfold in_range. repeat split; lra. }
  assert (Hq : User.query_get (users d2) 1 = Ok (Some sample_user))
    by reflexivity.
  repeat apply conj.
  - reflexivity.
  - rewrite (create_tower_checked no_strings d1 (JFloat 10) (JFloat 10) 1%Z 10 10
               eq_refl eq_refl)
      by (apply Hr; lra).
    reflexivity.
  - rewrite (create_tower_checked no_strings d2 (JFloat 10.0005) (JFloat 10) 1%Z
               10.0005 10 eq_refl eq_refl)
      by (apply Hr; lra).
    rewrite Hq. cbn [d2 towers].
    rewrite (scan_conflict [Tower.Build 1 10 10 1] 10.0005 10); [reflexivity |].
    exists (Tower.Build 1 10 10 1). split; [now left |].
    exact scenario_second_tower_near.
  - rewrite (create_tower_checked no_strings d2 (JFloat 20) (JFloat 20) 1%Z 20 20
               eq_refl eq_refl)
      by (apply Hr; lra).
    rewrite Hq. cbn [d2 towers].
    rewrite (scan_clear [Tower.Build 1 10 10 1] 20 20); [reflexivity |].
    intros tower [<- | []]. exact scenario_third_tower_far.
  - reflexivity.
Qed.

Lemma scenario_runs : run no_strings empty_db scenario = scenario_db.
Proof.
  destruct scenario_steps as [H1 [H2 [H3 [H4 _]]]].
  unfold run, scenario. cbn [fold_left handle].
  rewrite H1. cbn [snd]. rewrite H2. cbn [snd]. rewrite H3. cbn [snd].
  now rewrite H4.
Qed.

Lemma scenario_reachable : reachable no_strings scenario_db.
Proof. exists scenario. symmetry. exact scenario_runs. Qed.

(** The other two requests of the specification: a latitude of 91 is
    answered 400 and the [user_id] of no user 404. *)

Lemma scenario_rejections :
  fst (create_tower no_strings scenario_db (tower_body (JInt 91) (JInt 0) 1))
  = Ok (error "Invalid GPS coordinates" 400)
  /\ fst (create_tower no_strings scenario_db
            (tower_body (JFloat 30) (JFloat 30) 999))
     = Ok (error "User not found" 404).
Proof.
  split.
  - rewrite create_tower_present. unfold parse_coordinates.
    cbn [TowerData.latitude TowerData.longitude getitem bind float].
    change (fits_double 91) with true. change (fits_double 0) with true.
    cbn [bind].
    assert (Ht : negb (Rleb (-90) 91 && Rleb 91 90)
                 || negb (Rleb (-180) 0 && Rleb 0 180) = true).
    { apply orb_true_iff. left. apply negb_true_iff. apply andb_false_iff.
      right. unfold Rleb. destruct (Rle_dec 91 90); [lra | reflexivity]. }
    rewrite Ht. reflexivity.
  - rewrite (create_tower_checked no_strings scenario_db (JFloat 30) (JFloat 30)
               999%Z 30 30 eq_refl eq_refl)
      by (unfold in_range; repeat split; lra).
    reflexivity.
Qed.

Lemma create_tower_uncaught_overflow_witness :
  create_tower no_strings scenario_db (tower_body (JInt (10 ^ 400)) (JInt 0) 1)
  = (Raise OverflowError, scenario_db).
Proof.
  apply (create_tower_uncaught_overflow no_strings scenario_db (10 ^ 400)%Z).
  apply Z.leb_le. vm_compute. reflexivity.
Defined.

Lemma towers_of_user_uncaught_overflow_witness :
  get_towers_by_user_id scenario_db (2 ^ 63) = Raise OverflowError.
Proof.
  apply (towers_of_user_uncaught_overflow scenario_db (2 ^ 63)%Z).
  apply Z.le_refl.
Defined.

Lemma fetch_by_id_uncaught_overflow_witness :
  get_tower scenario_db (2 ^ 63) = Raise OverflowError
  /\ get_user scenario_db (2 ^ 63) = Raise OverflowError.
Proof.
  apply (fetch_by_id_uncaught_overflow scenario_db (2 ^ 63)%Z).
  apply Z.le_refl.
Defined.

Lemma ids_unique_and_monotonic_witness :
  NoDup (map Tower.id (towers scenario_db))
  /\ increasing (map Tower.id (towers scenario_db)).
Proof.
  pose proof (ids_unique_and_monotonic no_strings scenario_db
                scenario_reachable) as [_ [Hnd [_ [Hinc _]]]].
  split; assumption.
Defined.

Lemma errors_leave_store_unchanged_witness :
  snd (create_tower no_strings sample_db (tower_body (JInt 91) (JInt 0) 1))
  = sample_db.
Proof.
  apply (proj1 (errors_leave_store_unchanged no_strings sample_db)).
  left.
  assert (Hbad : bad_coordinates no_strings (JInt 91) (JInt 0)).
  { right. right. exists 91, 0. repeat split; try reflexivity.
    unfold in_range. lra. }
  destruct (create_tower_bad no_strings sample_db (JInt 91) (JInt 0) 1 Hbad)
    as [msg ->].
  reflexivity.
Defined.

End Samples.

(** ** What a request does to the two tables *)

Section Tables.

Variable float_of_string : string -> option R.

Lemma handle_users (d : db) (rq : request) :
  users (snd (handle float_of_string d rq)) = users d
  \/ (exists fn ln em,
        (forall u, In u (users d) -> User.email u <> em)
        /\ users (snd (handle float_of_string d rq))
           = users d ++ [User.Build (next_id (map User.id (users d))) fn ln em]).
Proof.
  destruct rq as [data | data]; cbn [handle].
  - destruct (create_user_outcome d data)
      as [[-> _] | [fn [ln [em [_ [Hnew ->]]]]]]; [now left |].
    right. exists fn, ln, em. split; [exact Hnew | reflexivity].
  - left.
    destruct (create_tower_outcome float_of_string d data)
      as [[-> _] | [vlat [vlon [lat [lon [uid [u [j H]]]]]]]]; [reflexivity |].
    destruct H as [_ [_ [_ [_ [_ [_ [_ ->]]]]]]]. reflexivity.
Qed.

Lemma handle_towers (d : db) (rq : request) :
  towers (snd (handle float_of_string d rq)) = towers d
  \/ (exists lat lon uid u,
        in_range lat lon
        /\ User.query_get (users d) uid = Ok (Some u)
        /\ (forall tower, In tower (towers d) -> far tower lat lon)
        /\ towers (snd (handle float_of_string d rq))
           = towers d
             ++ [Tower.Build (next_id (map Tower.id (towers d))) lat lon uid]).
Proof.
  destruct rq as [data | data]; cbn [handle].
  - left.
    destruct (create_user_outcome d data)
      as [[-> _] | [fn [ln [em [_ [_ ->]]]]]]; reflexivity.
  - destruct (create_tower_outcome float_of_string d data)
      as [[-> _] | [vlat [vlon [lat [lon [uid [u [j H]]]]]]]]; [now left |].
    destruct H as [_ [_ [_ [Hr [Hu [Hfar [_ ->]]]]]]].
    right. exists lat, lon, uid, u. repeat (split; [assumption |]). reflexivity.
Qed.

Lemma NoDup_snoc {A : Type} (l : list A) (x : A) :
  NoDup l -> ~ In x l -> NoDup (l ++ [x]).
Proof.
  induction l as [| y rest IH]; simpl; intros Hnd Hnotin.
  - constructor; [intros [] | constructor].
  - inversion Hnd as [| ? ? Hy Hrest]; subst. constructor.
    + intros Hin. apply in_app_or in Hin. destruct Hin as [Hin | [-> | []]].
      * now apply Hy.
      * apply Hnotin. now left.
    + apply IH; [exact Hrest |]. intros Hin. apply Hnotin. now right.
Qed.

Lemma fold_max_le (ids : list Z) (m : Z) :
  (0 <= m)%Z -> (forall k, In k ids -> (k <= m)%Z) ->
  (fold_right Z.max 0%Z ids <= m)%Z.
Proof.
  intros Hm. induction ids as [| x rest IH]; simpl; intros Hall.
  - exact Hm.
  - assert (Hx : (x <= m)%Z) by (apply Hall; now left).
    assert (Hrest : (fold_right Z.max 0%Z rest <= m)%Z).
    { apply IH. intros k Hk. apply Hall. now right. }
    lia.
Qed.

Lemma next_id_consecutive (n : nat) :
  next_id (map Z.of_nat (seq 1 n)) = Z.of_nat (S n).
Proof.
  unfold next_id.
  assert (Hmax : fold_right Z.max 0%Z (map Z.of_nat (seq 1 n)) = Z.of_nat n).
  { apply Z.le_antisymm.
    - apply fold_max_le; [lia |]. intros k Hk.
      apply in_map_iff in Hk. destruct Hk as [i [<- Hi]].
      apply in_seq in Hi. lia.
    - destruct n as [| n]; [simpl; lia |].
      apply fold_max_ge. apply in_map. apply in_seq. lia. }
  rewrite Hmax. lia.
Qed.

Lemma consecutive_snoc {A : Type} (key : A -> Z) (rows : list A) (x : A) :
  map key rows = map Z.of_nat (seq 1 (List.length rows)) ->
  key x = next_id (map key rows) ->
  map key (rows ++ [x])
  = map Z.of_nat (seq 1 (List.length (rows ++ [x]))).
Proof.
  intros Hrows Hx.
  rewrite map_app, length_app. cbn [map List.length].
  rewrite Nat.add_1_r, seq_S, map_app. cbn [map].
  rewrite Hx, Hrows, next_id_consecutive, <- Hrows.
  reflexivity.
Qed.

(** X1. In every state reached from the empty store no two users have
    the same email. *)
Theorem emails_unique (d : db) :
  reachable float_of_string d -> NoDup (map User.email (users d)).
Proof.
  apply (reachable_ind float_of_string
           (fun d => NoDup (map User.email (users d)))).
  - constructor.
  - intros d' rq _ Hnd.
    destruct (handle_users d' rq) as [-> | [fn [ln [em [Hnew ->]]]]];
      [exact Hnd |].
    rewrite map_app. cbn [map User.email]. apply NoDup_snoc; [exact Hnd |].
    intros Hin. apply in_map_iff in Hin. destruct Hin as [u [Hu Hin]].
    exact (Hnew u Hin Hu).
Qed.

(** X2. In every state reached from the empty store the [user_id] of each
    tower is the key of a stored user. *)
Theorem tower_owners_stored (d : db) :
  reachable float_of_string d ->
  forall tower, In tower (towers d) ->
    exists u, In u (users d) /\ User.id u = Tower.user_id tower.
Proof.
  intros Hd tower Hin.
  destruct (reachable_consistent float_of_string d Hd) as [Hown _].
  destruct (Hown tower Hin) as [u Hu].
  apply user_query_some in Hu. exists u. tauto.
Qed.

(** X3. In every state reached from the empty store each tower has a
    latitude in [-90, 90] and a longitude in [-180, 180]. *)
Theorem towers_in_range (d : db) :
  reachable float_of_string d ->
  forall tower, In tower (towers d) ->
    in_range (Tower.latitude tower) (Tower.longitude tower).
Proof.
  apply (reachable_ind float_of_string
           (fun d => forall tower, In tower (towers d) ->
                       in_range (Tower.latitude tower) (Tower.longitude tower))).
  - intros tower [].
  - intros d' rq _ IH tower.
    destruct (handle_towers d' rq)
      as [-> | [lat [lon [uid [u [Hr [_ [_ ->]]]]]]]]; [apply IH |].
    intros Hin. apply in_app_or in Hin. destruct Hin as [Hin | [<- | []]].
    + now apply IH.
    + exact Hr.
Qed.

(** X4. In every state reached from the empty store the keys of the users
    are 1, 2, ..., n in insertion order, and so are the keys of the
    towers. *)
Theorem ids_count_from_one (d : db) :
  reachable float_of_string d ->
  map User.id (users d) = map Z.of_nat (seq 1 (List.length (users d)))
  /\ map Tower.id (towers d) = map Z.of_nat (seq 1 (List.length (towers d))).
Proof.
  apply (reachable_ind float_of_string
           (fun d =>
              map User.id (users d)
              = map Z.of_nat (seq 1 (List.length (users d)))
              /\ map Tower.id (towers d)
                 = map Z.of_nat (seq 1 (List.length (towers d))))).
  - split; reflexivity.
  - intros d' rq _ [Hus Hts]. split.
    + destruct (handle_users d' rq) as [-> | [fn [ln [em [_ ->]]]]];
        [exact Hus |].
      now apply consecutive_snoc.
    + destruct (handle_towers d' rq)
        as [-> | [lat [lon [uid [u [_ [_ [_ ->]]]]]]]]; [exact Hts |].
      now apply consecutive_snoc.
Qed.

End Tables.

(** ** Requests one after another *)

Section Sequences.

Variable float_of_string : string -> option R.

Lemma find_app_some {A : Type} (f : A -> bool) (l l' : list A) (x : A) :
  find f l = Some x -> find f (l ++ l') = Some x.
Proof.
  induction l as [| y rest IH]; simpl; [discriminate |].
  destruct (f y); [trivial | exact IH].
Qed.

Lemma handle_extends (d : db) (rq : request) :
  exists us ts,
    users (snd (handle float_of_string d rq)) = users d ++ us
    /\ towers (snd (handle float_of_string d rq)) = towers d ++ ts.
Proof.
  destruct (handle_users float_of_string d rq) as [-> | [fn [ln [em [_ ->]]]]];
    destruct (handle_towers float_of_string d rq)
      as [-> | [lat [lon [uid [u [_ [_ [_ ->]]]]]]]];
    eexists; eexists; split;
    first [reflexivity | symmetry; apply app_nil_r].
Qed.

Lemma run_extends_users_towers (d : db) (rqs : list request) :
  exists us ts,
    users (run float_of_string d rqs) = users d ++ us
    /\ towers (run float_of_string d rqs) = towers d ++ ts.
Proof.
  induction rqs as [| rq rqs IH] using rev_ind.
  - exists [], []. cbn [run fold_left]. now rewrite !app_nil_r.
  - rewrite run_snoc. destruct IH as [us [ts [Hus Hts]]].
    destruct (handle_extends (run float_of_string d rqs) rq)
      as [us' [ts' [-> ->]]].
    exists (us ++ us'), (ts ++ ts'). rewrite Hus, Hts, !app_assoc. now split.
Qed.

Lemma to_dicts_inv (us : list User.t) (rows : list Tower.t) (js : list json) :
  to_dicts us rows = Ok js ->
  Forall2 (fun x j => Tower.to_dict us x = Ok j) rows js.
Proof.
  revert js. induction rows as [| x rest IH]; intros js; cbn [to_dicts].
  - intros H. injection H as <-. constructor.
  - destruct (Tower.to_dict us x) as [j | e] eqn:Hj; cbn [bind];
      [| discriminate].
    destruct (to_dicts us rest) as [js' | e] eqn:Hrest; cbn [bind];
      [| discriminate].
    intros H. injection H as <-. constructor; [exact Hj | now apply IH].
Qed.

Lemma to_dicts_of_all (us : list User.t) (rows : list Tower.t) (js : list json) :
  Forall2 (fun x j => Tower.to_dict us x = Ok j) rows js ->
  to_dicts us rows = Ok js.
Proof.
  induction 1 as [| x j rows js Hx Hall IH]; cbn [to_dicts].
  - reflexivity.
  - rewrite Hx. cbn [bind]. rewrite IH. reflexivity.
Qed.

Lemma query_more_users (us us' : list User.t) (k : Z) (u : User.t) :
  User.query_get us k = Ok (Some u) ->
  User.query_get (us ++ us') k = Ok (Some u).
Proof.
  intros Hu.
  destruct (user_query_cases us k) as [[_ Hq] | [Hk Hq]];
    rewrite Hq in Hu; [discriminate |].
  injection Hu as Hu.
  destruct (user_query_cases (us ++ us') k) as [[Hk' _] | [_ ->]];
    [congruence |].
  now rewrite (find_app_some _ us us' u Hu).
Qed.

Lemma to_dict_more_users (us us' : list User.t) (x : Tower.t) (j : json) :
  Tower.to_dict us x = Ok j -> Tower.to_dict (us ++ us') x = Ok j.
Proof.
  intros Hj. destruct (to_dict_ok_owner us x j Hj) as [u Hu].
  rewrite (to_dict_owner us x u Hu) in Hj.
  now rewrite (to_dict_owner (us ++ us') x u (query_more_users us us' _ u Hu)).
Qed.

(** X5. No request removes or changes a row: the tables after a sequence
    of requests are the tables after any part of it done first, followed
    by the rows the rest added. *)
Theorem tables_only_grow (d : db) (before after : list request) :
  exists us ts,
    users (run float_of_string d (before ++ after))
    = users (run float_of_string d before) ++ us
    /\ towers (run float_of_string d (before ++ after))
       = towers (run float_of_string d before) ++ ts.
Proof.
  assert (Happ : run float_of_string d (before ++ after)
                 = run float_of_string (run float_of_string d before) after).
  { unfold run. apply fold_left_app. }
  rewrite Happ. apply run_extends_users_towers.
Qed.

(** X6. What GET /users/<id> or GET /towers/<id> answered with 200 it
    answers again, unchanged, after any further requests. *)
Theorem fetched_rows_persist (d : db) (rqs : list request) (k : Z) (j : json) :
  (get_user d k = Ok (j, 200%Z) ->
   get_user (run float_of_string d rqs) k = Ok (j, 200%Z))
  /\ (get_tower d k = Ok (j, 200%Z) ->
      get_tower (run float_of_string d rqs) k = Ok (j, 200%Z)).
Proof.
  destruct (run_extends_users_towers d rqs) as [us [ts [Hus Hts]]].
  split.
  - unfold get_user. rewrite Hus.
    destruct (user_query_cases (users d) k) as [[_ ->] | [Hk ->]];
      cbn [bind]; [discriminate |].
    destruct (user_query_cases (users d ++ us) k) as [[Hk' _] | [_ ->]];
      [congruence |]. cbn [bind].
    destruct (find _ (users d)) as [u |] eqn:Hu.
    + now rewrite (find_app_some _ (users d) us u Hu).
    + intros H. discriminate H.
  - unfold get_tower. rewrite Hts, Hus.
    destruct (tower_query_cases (towers d) k) as [[_ ->] | [Hk ->]];
      cbn [bind]; [discriminate |].
    destruct (tower_query_cases (towers d ++ ts) k) as [[Hk' _] | [_ ->]];
      [congruence |]. cbn [bind].
    destruct (find _ (towers d)) as [x |] eqn:Hx.
    + rewrite (find_app_some _ (towers d) ts x Hx).
      destruct (Tower.to_dict (users d) x) as [j' | e] eqn:Hj; cbn [bind];
        [| discriminate].
      now rewrite (to_dict_more_users (users d) us x j' Hj).
    + intros H. discriminate H.
Qed.

(** X7. After a POST /users answered 201, GET /users lists what it listed
    before followed by the user of the response. *)
Theorem get_users_after_create (d : db) (data : option UserData.t) (j : json) :
  fst (create_user d data) = Ok (j, 201%Z) ->
  exists js,
    get_users d = Ok (JArr js, 200%Z)
    /\ get_users (snd (create_user d data)) = Ok (JArr (js ++ [j]), 200%Z).
Proof.
  intros Hcreated. exists (map User.to_dict (users d)).
  split; [reflexivity |].
  destruct (create_user_outcome d data)
    as [[_ Hst] | [fn [ln [em [_ [_ Heq]]]]]].
  { rewrite Hcreated in Hst. destruct Hst as [Hst | Hst]; discriminate Hst. }
  rewrite Heq in Hcreated |- *. cbn [fst snd add_user] in *.
  injection Hcreated as <-.
  unfold get_users. cbn [users]. now rewrite map_app.
Qed.

(** X8. A POST /towers that was answered 201 is answered 400, a tower
    within 1 km, when it is sent again, and adds nothing. *)
Theorem repeated_tower_conflicts (d : db) (data : option TowerData.t) (j : json) :
  fst (create_tower float_of_string d data) = Ok (j, 201%Z) ->
  create_tower float_of_string (snd (create_tower float_of_string d data)) data
  = (Ok (error "Tower already exists within 1km" 400),
     snd (create_tower float_of_string d data)).
Proof.
  intros Hcreated.
  destruct (create_tower_outcome float_of_string d data)
    as [[_ Hst] | [vlat [vlon [lat [lon [uid [u [j' H]]]]]]]].
  { rewrite Hcreated in Hst.
    destruct Hst as [Hst | [Hst | Hst]]; discriminate Hst. }
  destruct H as [-> [Hlat [Hlon [Hr [Hu [_ [_ Heq]]]]]]].
  rewrite Heq. cbn [snd add_tower].
  rewrite (create_tower_checked float_of_string _ vlat vlon uid lat lon
             Hlat Hlon Hr).
  cbn [users towers]. rewrite Hu.
  rewrite (scan_conflict _ lat lon); [reflexivity |].
  eexists. split; [apply in_or_app; right; now left |].
  apply (near_same_point
           (Tower.Build (next_id (map Tower.id (towers d))) lat lon uid)).
Qed.

(** X9. A POST /users that was answered 201 is answered 400, the email
    exists, when it is sent again, and adds nothing. *)
Theorem repeated_user_conflicts (d : db) (data : option UserData.t) (j : json) :
  fst (create_user d data) = Ok (j, 201%Z) ->
  create_user (snd (create_user d data)) data
  = (Ok (error "Email already exists" 400), snd (create_user d data)).
Proof.
  intros Hcreated.
  destruct (create_user_outcome d data)
    as [[_ Hst] | [fn [ln [em [-> [_ Heq]]]]]].
  { rewrite Hcreated in Hst. destruct Hst as [Hst | Hst]; discriminate Hst. }
  rewrite Heq. cbn [snd add_user].
  rewrite create_user_checked. cbn [users].
  destruct (User.query_by_email _ em) as [u |] eqn:Hq; [reflexivity |].
  exfalso.
  apply (proj1 (query_by_email_none _ em) Hq
           (User.Build (next_id (map User.id (users d))) fn ln em)).
  - apply in_or_app. right. now left.
  - reflexivity.
Qed.

(** X10. POST /towers never changes what GET /users answers, and POST
    /users never changes a successful answer of GET /towers. *)
Theorem posts_keep_other_listing (d : db) :
  (forall data,
      get_users (snd (create_tower float_of_string d data)) = get_users d)
  /\ (forall data r,
        get_towers d = Ok r ->
        get_towers (snd (create_user d data)) = Ok r).
Proof.
  split.
  - intros data. unfold get_users.
    destruct (handle_users float_of_string d (PostTowers data))
      as [Heq | [fn [ln [em [_ Heq]]]]]; cbn [handle] in Heq.
    + now rewrite Heq.
    + exfalso.
      destruct (create_tower_outcome float_of_string d data)
        as [[Hd _] | [vlat [vlon [lat [lon [uid [u [j H]]]]]]]].
      * rewrite Hd in Heq. apply (f_equal (@List.length User.t)) in Heq.
        rewrite length_app in Heq. simpl in Heq. lia.
      * destruct H as [_ [_ [_ [_ [_ [_ [_ Hc]]]]]]]. rewrite Hc in Heq.
        cbn [snd add_tower users] in Heq.
        apply (f_equal (@List.length User.t)) in Heq.
        rewrite length_app in Heq. simpl in Heq. lia.
  - intros data r Hr. unfold get_towers in *.
    destruct (to_dicts (users d) (towers d)) as [js |] eqn:Hjs; cbn [bind] in Hr;
      [| discriminate].
    apply to_dicts_inv in Hjs.
    destruct (handle_extends d (PostUsers data)) as [us [ts [Hus Hts]]].
    cbn [handle] in Hus, Hts.
    destruct (handle_towers float_of_string d (PostUsers data))
      as [Hsame | [lat [lon [uid [u [_ [_ [_ Hmore]]]]]]]]; cbn [handle] in *.
    + rewrite Hsame, Hus.
      rewrite (to_dicts_of_all (users d ++ us) (towers d) js); [exact Hr |].
      eapply Forall2_impl; [| exact Hjs].
      intros x j0 Hx. now apply to_dict_more_users.
    + exfalso.
      destruct (create_user_outcome d data)
        as [[Hd _] | [fn [ln [em [_ [_ Hc]]]]]].
      * rewrite Hd in Hmore. apply (f_equal (@List.length Tower.t)) in Hmore.
        rewrite length_app in Hmore. simpl in Hmore. lia.
      * rewrite Hc in Hmore. cbn [snd add_user towers] in Hmore.
        apply (f_equal (@List.length Tower.t)) in Hmore.
        rewrite length_app in Hmore. simpl in Hmore. lia.
Qed.

End Sequences.

(** ** Listings and the JSON of a row *)

Section Listings.

Variable float_of_string : string -> option R.

Lemma Forall2_filter_incl {A B : Type} (R : A -> B -> Prop) (f : A -> bool)
    (l : list A) (l' : list B) :
  Forall2 R l l' ->
  exists k, Forall2 R (filter f l) k /\ incl k l'.
Proof.
  induction 1 as [| a b l l' Hab Hall [k [Hk Hincl]]]; cbn [filter].
  - exists []. split; [constructor | intros x []].
  - destruct (f a).
    + exists (b :: k). split; [now constructor |].
      intros x [<- | Hx]; [now left | right; now apply Hincl].
    + exists k. split; [exact Hk |]. intros x Hx. right. now apply Hincl.
Qed.

(** X11. In every state reached from the empty store GET /towers answers
    200 with the JSON of every tower, one for each row and in the order
    of the table. *)
Theorem get_towers_lists_all (d : db) :
  reachable float_of_string d ->
  exists js,
    get_towers d = Ok (JArr js, 200%Z)
    /\ Forall2 (fun tower j => Tower.to_dict (users d) tower = Ok j)
               (towers d) js.
Proof.
  intros Hd.
  destruct (reachable_consistent float_of_string d Hd) as [Hown _].
  destruct (to_dicts_spec (users d) (towers d) Hown) as [js [Hjs Hall]].
  exists js. split; [| exact Hall].
  unfold get_towers. now rewrite Hjs.
Qed.

(** X12. Whenever GET /towers answers 200, GET /users/<id>/towers answers
    200 for every id of 64 bits, with towers that are all in the answer
    of GET /towers. *)
Theorem towers_of_user_among_all (d : db) (uid : Z) (all : list json) :
  int64 uid = true ->
  get_towers d = Ok (JArr all, 200%Z) ->
  exists js,
    get_towers_by_user_id d uid = Ok (JArr js, 200%Z) /\ incl js all.
Proof.
  intros Hk.
  unfold get_towers, get_towers_by_user_id, Tower.query_by_user_id, bind_int.
  rewrite Hk. cbn [bind].
  destruct (to_dicts (users d) (towers d)) as [js0 |] eqn:Hall; cbn [bind];
    [| discriminate].
  intros H. injection H as <-.
  apply to_dicts_inv in Hall.
  destruct (Forall2_filter_incl _ (fun x => Z.eqb (Tower.user_id x) uid)
              _ _ Hall) as [js [Hjs Hincl]].
  exists js. split; [| exact Hincl].
  now rewrite (to_dicts_of_all _ _ _ Hjs).
Qed.

(** X13. The JSON that GET /towers/<id> answers with 200 carries that id
    under [id], and under [user] exactly what GET /users/<id> answers for
    the id it carries under [user_id]. *)
Theorem tower_json_embeds_owner (d : db) (k : Z) (j : json) :
  get_tower d k = Ok (j, 200%Z) ->
  json_field "id" j = Some (JInt k)
  /\ exists uid ju,
       json_field "user_id" j = Some (JInt uid)
       /\ json_field "user" j = Some ju
       /\ get_user d uid = Ok (ju, 200%Z).
Proof.
  unfold get_tower.
  destruct (tower_query_cases (towers d) k) as [[_ ->] | [_ ->]];
    cbn [bind]; [discriminate |].
  destruct (find _ (towers d)) as [x |] eqn:Hx; [| intros H; discriminate H].
  apply (find_by_key_some Tower.id) in Hx. destruct Hx as [_ Hk].
  destruct (Tower.to_dict (users d) x) as [j' | e] eqn:Hj; cbn [bind];
    [| discriminate].
  destruct (to_dict_ok_owner _ _ _ Hj) as [u Hu].
  rewrite (to_dict_owner _ _ u Hu) in Hj. injection Hj as <-.
  intros H. injection H as <-. split.
  - cbn. now rewrite Hk.
  - exists (Tower.user_id x), (User.to_dict u).
    repeat split; try reflexivity.
    unfold get_user. now rewrite Hu.
Qed.

(** X14. The JSON of a row determines the row: two users with the same
    JSON are the same user, and so are two towers. *)
Theorem to_dict_injective :
  (forall u1 u2, User.to_dict u1 = User.to_dict u2 -> u1 = u2)
  /\ (forall us x1 x2 j,
        Tower.to_dict us x1 = Ok j -> Tower.to_dict us x2 = Ok j -> x1 = x2).
Proof.
  split.
  - intros [i1 f1 l1 e1] [i2 f2 l2 e2] H.
    unfold User.to_dict in H. cbn in H.
    injection H as -> -> -> ->. reflexivity.
  - intros us [i1 la1 lo1 o1] [i2 la2 lo2 o2] j H1 H2.
    destruct (to_dict_ok_owner _ _ _ H1) as [u1 Hu1].
    destruct (to_dict_ok_owner _ _ _ H2) as [u2 Hu2].
    rewrite (to_dict_owner _ _ u1 Hu1) in H1.
    rewrite (to_dict_owner _ _ u2 Hu2) in H2.
    cbn in H1, H2. rewrite <- H1 in H2.
    injection H2 as -> -> -> ->. reflexivity.
Qed.

End Listings.

(** ** More on the distance *)

Section Distance.

Local Open Scope R_scope.

Lemma haversine_swap (lat1 lon1 lat2 lon2 : R) :
  haversine lat1 lon1 lat2 lon2 = haversine lat2 lon2 lat1 lon1.
Proof. rewrite !haversine_unfold. now rewrite hav_a_sym. Qed.

(** X18. A tower and a point, both of latitude in [-90, 90], whose
    latitudes differ by 0.01 degree or more are at least one kilometre
    apart, whatever their longitudes. *)
Theorem latitude_gap_is_far (tower : Tower.t) (lat lon : R) :
  -90 <= Tower.latitude tower <= 90 ->
  -90 <= lat <= 90 ->
  0.01 <= Rabs (lat - Tower.latitude tower) ->
  far tower lat lon.
Proof.
  intros [Ht0 Ht1] [Hl0 Hl1] Hgap.
  pose proof PI_bounds as [Hlo Hhi].
  unfold far.
  destruct (Rle_dec (Tower.latitude tower) lat) as [Hle | Hgt].
  - rewrite Rabs_pos_eq in Hgap by lra.
    destruct (haversine_latitude_bound (Tower.latitude tower)
                (Tower.longitude tower) lat lon) as [dist [Hd Hge]]; try lra.
    exists dist. split; [exact Hd | nra].
  - rewrite Rabs_left in Hgap by lra.
    destruct (haversine_latitude_bound lat lon (Tower.latitude tower)
                (Tower.longitude tower)) as [dist [Hd Hge]]; try lra.
    exists dist. split; [now rewrite haversine_swap | nra].
Qed.

End Distance.

(** ** More on the scan and on the coordinates *)

Section Checks.

Variable float_of_string : string -> option R.

Local Open Scope R_scope.

(** X20. The answer of the scan does not depend on the order in which the
    towers come. *)
Theorem scan_order_independent (rows rows' : list Tower.t) (lat lon : R) :
  Permutation rows rows' ->
  tower_within_1km rows lat lon = tower_within_1km rows' lat lon.
Proof.
  intros Hperm.
  destruct (scan_decides rows lat lon) as [[tower [Hin Hn]] | Hfar].
  - rewrite (scan_conflict rows lat lon) by now exists tower.
    rewrite (scan_conflict rows' lat lon); [reflexivity |].
    exists tower. split; [| exact Hn]. now apply (Permutation_in _ Hperm).
  - rewrite (scan_clear rows lat lon Hfar).
    rewrite (scan_clear rows' lat lon); [reflexivity |].
    intros tower Hin. apply Hfar.
    now apply (Permutation_in _ (Permutation_sym Hperm)).
Qed.

(** X21. The [try] block hands on a point exactly when both coordinates
    convert with [float] and the point lies in [-90, 90] x [-180, 180],
    bounds included. *)
Theorem coordinates_accepted_iff (vlat vlon : json) (uid : Z) (lat lon : R) :
  parse_coordinates float_of_string
    (TowerData.Build (Some vlat) (Some vlon) (Some uid))
  = Ok (inr (lat, lon))
  <-> float float_of_string vlat = Ok lat
      /\ float float_of_string vlon = Ok lon
      /\ in_range lat lon.
Proof.
  split.
  - intros Hp.
    destruct (coordinates_decide float_of_string vlat vlon uid)
      as [Hbad | [[la [lo [Hla [Hlo Hr]]]] | Hover]].
    + destruct (parse_coordinates_bad float_of_string vlat vlon uid Hbad)
        as [msg Hmsg].
      rewrite Hmsg in Hp. discriminate Hp.
    + rewrite (parse_coordinates_ok float_of_string vlat vlon uid la lo
                 Hla Hlo Hr) in Hp.
      injection Hp as <- <-.
      split; [exact Hla | split; [exact Hlo | exact Hr]].
    + rewrite Hover in Hp. discriminate Hp.
  - intros [Hlat [Hlon Hr]]. now apply parse_coordinates_ok.
Qed.

(** X23. A JSON boolean is taken as a coordinate: [true] as 1 and [false]
    as 0, with the same outcome as the number itself. *)
Theorem boolean_coordinates (d : db) (b : bool) (v : json) (uid : Z) :
  create_tower float_of_string d (tower_body (JBool b) v uid)
  = create_tower float_of_string d
      (tower_body (JInt (if b then 1 else 0)) v uid)
  /\ create_tower float_of_string d (tower_body v (JBool b) uid)
     = create_tower float_of_string d
         (tower_body v (JInt (if b then 1 else 0)) uid).
Proof.
  assert (Hfloat : float float_of_string (JBool b)
                   = float float_of_string (JInt (if b then 1 else 0)%Z)).
  { destruct b; reflexivity. }
  unfold create_tower, tower_body, parse_coordinates.
  cbn [TowerData.empty TowerData.latitude TowerData.longitude
       TowerData.user_id missing orb getitem bind].
  now rewrite Hfloat.
Qed.

(** X24. How a rejected coordinate is answered.  When [float] raises
    [ValueError] or [TypeError] on the latitude, or converts the latitude
    and raises one of the two on the longitude, the answer is 400 "must be
    numbers", even if the other value is out of range.  When both values
    convert to a point out of range it is 400 "Invalid GPS coordinates".
    When [float] raises [OverflowError], on the latitude or after
    converting it on the longitude, the exception is not caught.  The
    store is unchanged each time. *)
Theorem coordinate_messages (d : db) (vlat vlon : json) (uid : Z) :
  (not_a_number float_of_string vlat
   \/ (exists lat, float float_of_string vlat = Ok lat
                   /\ not_a_number float_of_string vlon) ->
   create_tower float_of_string d (tower_body vlat vlon uid)
   = (Ok (error "Latitude and longitude must be numbers" 400), d))
  /\ (forall lat lon,
        float float_of_string vlat = Ok lat ->
        float float_of_string vlon = Ok lon ->
        ~ in_range lat lon ->
        create_tower float_of_string d (tower_body vlat vlon uid)
        = (Ok (error "Invalid GPS coordinates" 400), d))
  /\ (float float_of_string vlat = Raise OverflowError
      \/ (exists lat, float float_of_string vlat = Ok lat
                      /\ float float_of_string vlon = Raise OverflowError) ->
      create_tower float_of_string d (tower_body vlat vlon uid)
      = (Raise OverflowError, d)).
Proof.
  rewrite create_tower_present. unfold parse_coordinates, not_a_number.
  cbn [TowerData.latitude TowerData.longitude getitem bind].
  repeat apply conj.
  - intros [[H | H] | [lat [Hlat [H | H]]]].
    + rewrite H. reflexivity.
    + rewrite H. reflexivity.
    + rewrite Hlat. cbn [bind]. rewrite H. reflexivity.
    + rewrite Hlat. cbn [bind]. rewrite H. reflexivity.
  - intros lat lon -> ->. cbn [bind]. intros Hout.
    destruct (negb (Rleb (-90) lat && Rleb lat 90)
              || negb (Rleb (-180) lon && Rleb lon 180)) eqn:Htest;
      [reflexivity |].
    apply range_test in Htest. now elim Hout.
  - intros [H | [lat [Hlat H]]].
    + rewrite H. reflexivity.
    + rewrite Hlat. cbn [bind]. rewrite H. reflexivity.
Qed.

End Checks.

(** ** The contracts within their bounds

    What the handlers answer on the requests that end in no uncaught
    exception, with the JSON of each answer written out. *)

Section Contracts.

Variable float_of_string : string -> option R.

Lemma stored_user_found (d : db) (u : User.t) :
  reachable float_of_string d ->
  In u (users d) -> int64 (User.id u) = true ->
  User.query_get (users d) (User.id u) = Ok (Some u).
Proof.
  intros Hd Hin Hk.
  destruct (reachable_consistent float_of_string d Hd) as [_ [Hus _]].
  apply increasing_NoDup in Hus.
  destruct (user_query_cases (users d) (User.id u)) as [[Hk' _] | [_ ->]];
    [congruence |].
  now rewrite (find_by_key User.id (users d) u Hus Hin).
Qed.

Lemma absent_user_not_found (rows : list User.t) (k : Z) :
  int64 k = true -> (forall u, In u rows -> User.id u <> k) ->
  User.query_get rows k = Ok None.
Proof.
  intros Hk Hnone.
  destruct (user_query_cases rows k) as [[Hk' _] | [_ ->]]; [congruence |].
  apply (find_by_key_none User.id) in Hnone. now rewrite Hnone.
Qed.

Lemma reachable_towers_in_range (d : db) :
  reachable float_of_string d ->
  forall tower, In tower (towers d) ->
    in_range (Tower.latitude tower) (Tower.longitude tower).
Proof.
  intros Hd.
  now destruct (reachable_consistent float_of_string d Hd) as [_ [_ [_ Hin]]].
Qed.

Lemma to_dicts_owned (us : list User.t) (u : User.t) (uid : Z)
    (rows : list Tower.t) :
  User.query_get us uid = Ok (Some u) ->
  to_dicts us (filter (fun x => Z.eqb (Tower.user_id x) uid) rows)
  = Ok (map (tower_json_spec u)
            (filter (fun x => Z.eqb (Tower.user_id x) uid) rows)).
Proof.
  intros Hu. induction rows as [| x rest IH]; cbn [filter].
  - reflexivity.
  - destruct (Z.eqb_spec (Tower.user_id x) uid) as [Heq | _]; [| exact IH].
    cbn [to_dicts map].
    rewrite (to_dict_owner us x u) by (now rewrite Heq).
    cbn [bind]. rewrite IH. reflexivity.
Qed.

Lemma distance_over_latitude_gap (lat1 lon1 lat2 lon2 : R) :
  (-90 <= lat1 <= 90)%R -> (-90 <= lat2 <= 90)%R ->
  exists dist,
    haversine lat1 lon1 lat2 lon2 = Ok dist
    /\ (6371 * (Rabs (lat2 - lat1) * PI / 180) <= dist)%R.
Proof.
  intros [Ha0 Ha1] [Hb0 Hb1].
  destruct (Rle_dec lat1 lat2) as [Hle | Hgt].
  - rewrite Rabs_pos_eq by lra.
    apply haversine_latitude_bound; lra.
  - rewrite Rabs_left by lra.
    destruct (haversine_latitude_bound lat2 lon2 lat1 lon1)
      as [dist [Hd Hge]]; try lra.
    exists dist. split; [now rewrite haversine_swap |].
    replace (- (lat2 - lat1))%R with (lat1 - lat2)%R by ring. exact Hge.
Qed.

Lemma filter_none {A : Type} (f : A -> bool) (l : list A) :
  (forall x, In x l -> f x = false) -> filter f l = [].
Proof.
  induction l as [| y rest IH]; intros Hall; cbn [filter]; [reflexivity |].
  rewrite (Hall y (or_introl eq_refl)). apply IH.
  intros x Hx. apply Hall. now right.
Qed.

(** X25. In every state reached from the empty store, for ids of 64
    bits: GET /towers/<id> answers 200 with the JSON of the tower of that
    id, its owner under [user], and 404 with an error body when no tower
    has the id; GET /users/<id> answers 200 with the JSON of the user of
    that id and 404 with an error body when no user has it. *)
Theorem fetch_by_id_of_64_bits (d : db) :
  reachable float_of_string d ->
  (forall tower,
      In tower (towers d) -> int64 (Tower.id tower) = true ->
      exists owner,
        In owner (users d) /\ User.id owner = Tower.user_id tower
        /\ get_tower d (Tower.id tower)
           = Ok (tower_json_spec owner tower, 200%Z))
  /\ (forall k,
        int64 k = true ->
        (forall tower, In tower (towers d) -> Tower.id tower <> k) ->
        get_tower d k = Ok (error_json_spec "Tower not found", 404%Z))
  /\ (forall u,
        In u (users d) -> int64 (User.id u) = true ->
        get_user d (User.id u) = Ok (user_json_spec u, 200%Z))
  /\ (forall k,
        int64 k = true ->
        (forall u, In u (users d) -> User.id u <> k) ->
        get_user d k = Ok (error_json_spec "User not found", 404%Z)).
Proof.
  intros Hd.
  destruct (reachable_consistent float_of_string d Hd) as [Hown [_ [Hts _]]].
  apply increasing_NoDup in Hts.
  repeat apply conj.
  - intros tower Hin Hk.
    destruct (Hown tower Hin) as [owner Ho].
    exists owner.
    destruct (user_query_some _ _ _ Ho) as [_ [Hino Hid]].
    split; [exact Hino | split; [exact Hid |]].
    unfold get_tower.
    destruct (tower_query_cases (towers d) (Tower.id tower))
      as [[Hk' _] | [_ ->]]; [congruence |]. cbn [bind].
    rewrite (find_by_key Tower.id (towers d) tower Hts Hin).
    rewrite (to_dict_owner _ _ owner Ho). reflexivity.
  - intros k Hk Hnone. unfold get_tower.
    destruct (tower_query_cases (towers d) k) as [[Hk' _] | [_ ->]];
      [congruence |]. cbn [bind].
    apply (find_by_key_none Tower.id) in Hnone. now rewrite Hnone.
  - intros u Hin Hk. unfold get_user.
    now rewrite (stored_user_found d u Hd Hin Hk).
  - intros k Hk Hnone. unfold get_user.
    now rewrite (absent_user_not_found _ k Hk Hnone).
Qed.

(** X26. In every state reached from the empty store, for an id of 64
    bits: GET /users/<id>/towers answers 200 with the JSON of the towers
    whose [user_id] is that id, each once and in the order of the table,
    with the user of that id under [user]; it answers 200 with the empty
    array when no user has the id. *)
Theorem towers_of_user_listed (d : db) (uid : Z) :
  reachable float_of_string d ->
  int64 uid = true ->
  (forall u,
      In u (users d) -> User.id u = uid ->
      get_towers_by_user_id d uid
      = Ok (JArr (map (tower_json_spec u)
                      (filter (fun x => Z.eqb (Tower.user_id x) uid)
                              (towers d))),
            200%Z))
  /\ ((forall u, In u (users d) -> User.id u <> uid) ->
      get_towers_by_user_id d uid = Ok (JArr [], 200%Z)).
Proof.
  intros Hd Hk.
  unfold get_towers_by_user_id, Tower.query_by_user_id, bind_int.
  rewrite Hk. cbn [bind]. split.
  - intros u Hin Hid.
    assert (Hu : User.query_get (users d) uid = Ok (Some u)).
    { rewrite <- Hid. apply stored_user_found; [exact Hd | exact Hin |].
      now rewrite Hid. }
    now rewrite (to_dicts_owned (users d) u uid (towers d) Hu).
  - intros Hnone.
    destruct (reachable_consistent float_of_string d Hd) as [Hown _].
    rewrite filter_none; [reflexivity |].
    intros x Hx. apply Z.eqb_neq. intros Heq.
    destruct (Hown x Hx) as [u Hu].
    destruct (user_query_some _ _ _ Hu) as [_ [Hin Hid]].
    apply (Hnone u Hin). congruence.
Qed.


(** X28. POST /towers answers before it looks at any tower: a body that
    is [None] or lacks a key is answered 400 with an error body, and a
    body whose coordinates convert to a point in range and whose
    [user_id], of 64 bits, is the key of no user is answered 404 with an
    error body, whatever towers are stored; nothing is stored. *)
Theorem create_tower_early_answers (d : db) :
  (forall data,
      tower_fields_absent data ->
      create_tower float_of_string d data
      = (Ok (error_json_spec "Missing latitude, longitude, or user_id",
             400%Z), d))
  /\ (forall vlat vlon uid lat lon,
        float float_of_string vlat = Ok lat ->
        float float_of_string vlon = Ok lon ->
        in_range lat lon ->
        int64 uid = true ->
        (forall u, In u (users d) -> User.id u <> uid) ->
        create_tower float_of_string d (tower_body vlat vlon uid)
        = (Ok (error_json_spec "User not found", 404%Z), d)).
Proof.
  split.
  - intros data Habs.
    now rewrite (create_tower_absent float_of_string d data Habs).
  - intros vlat vlon uid lat lon Hlat Hlon Hr Hk Hnone.
    rewrite (create_tower_checked float_of_string d vlat vlon uid lat lon
               Hlat Hlon Hr).
    now rewrite (absent_user_not_found _ uid Hk Hnone).
Qed.

(** X29. In every state reached from the empty store, POST /towers at
    the very coordinates of a stored tower, for the key of a stored user,
    is answered 400 with the error body of a conflict, and nothing is
    stored. *)
Theorem same_coordinates_conflict (d : db) (vlat vlon : json) (uid : Z)
    (u : User.t) (tower : Tower.t) :
  reachable float_of_string d ->
  float float_of_string vlat = Ok (Tower.latitude tower) ->
  float float_of_string vlon = Ok (Tower.longitude tower) ->
  In u (users d) -> User.id u = uid -> int64 uid = true ->
  In tower (towers d) ->
  create_tower float_of_string d (tower_body vlat vlon uid)
  = (Ok (error_json_spec "Tower already exists within 1km", 400%Z), d).
Proof.
  intros Hd Hlat Hlon Hu Hid Hk Hin.
  pose proof (reachable_towers_in_range d Hd tower Hin) as Hr.
  rewrite (create_tower_checked float_of_string d vlat vlon uid _ _
             Hlat Hlon Hr).
  rewrite <- Hid in Hk |- *.
  rewrite (stored_user_found d u Hd Hu Hk).
  rewrite (scan_conflict (towers d)); [reflexivity |].
  exists tower. split; [exact Hin | apply near_same_point].
Qed.

(** X30. In every state reached from the empty store, POST /towers with
    coordinates that convert to a point in range whose latitude differs
    by 0.01 degree or more from that of every stored tower, for the key,
    of 64 bits, of a stored user, succeeds: a tower with those
    coordinates, that [user_id] and a key greater than every stored key
    is appended to the table, the answer is 201 with its JSON, its owner
    under [user], and GET /towers/<id> with that key, if it is of 64
    bits, answers 200 with the same JSON. *)
Theorem create_tower_succeeds_with_gap (d : db) (vlat vlon : json) (uid : Z)
    (lat lon : R) (u : User.t) :
  reachable float_of_string d ->
  float float_of_string vlat = Ok lat ->
  float float_of_string vlon = Ok lon ->
  in_range lat lon ->
  In u (users d) -> User.id u = uid -> int64 uid = true ->
  (forall tower, In tower (towers d) ->
     (0.01 <= Rabs (lat - Tower.latitude tower))%R) ->
  exists new_tower,
    create_tower float_of_string d (tower_body vlat vlon uid)
    = (Ok (tower_json_spec u new_tower, 201%Z),
       Build_db (users d) (towers d ++ [new_tower]))
    /\ Tower.latitude new_tower = lat
    /\ Tower.longitude new_tower = lon
    /\ Tower.user_id new_tower = uid
    /\ (forall tower, In tower (towers d) ->
          (Tower.id tower < Tower.id new_tower)%Z)
    /\ (int64 (Tower.id new_tower) = true ->
        get_tower (Build_db (users d) (towers d ++ [new_tower]))
                  (Tower.id new_tower)
        = Ok (tower_json_spec u new_tower, 200%Z)).
Proof.
  intros Hd Hlat Hlon Hr Hu Hid Hk Hgap.
  assert (Hq : User.query_get (users d) uid = Ok (Some u)).
  { rewrite <- Hid in Hk |- *. now apply stored_user_found. }
  assert (Hfar : forall tower, In tower (towers d) -> far tower lat lon).
  { intros tower Hin.
    destruct (reachable_towers_in_range d Hd tower Hin) as [Ht _].
    destruct Hr as [Hl _].
    destruct (distance_over_latitude_gap (Tower.latitude tower)
                (Tower.longitude tower) lat lon Ht Hl) as [dist [Hdist Hge]].
    exists dist. split; [exact Hdist |].
    pose proof (Hgap tower Hin) as Hg.
    pose proof PI_bounds as [Hlo Hhi].
    nra. }
  set (new_tower := Tower.Build (next_id (map Tower.id (towers d))) lat lon uid).
  assert (Hj : Tower.to_dict (users d) new_tower
               = Ok (tower_json_spec u new_tower)).
  { now rewrite (to_dict_owner (users d) new_tower u Hq). }
  exists new_tower.
  rewrite (create_tower_checked float_of_string d vlat vlon uid lat lon
             Hlat Hlon Hr).
  rewrite Hq, (scan_clear _ _ _ Hfar).
  cbn [add_tower fst snd]. fold new_tower. rewrite Hj. cbn [bind].
  repeat (split; [reflexivity |]).
  split.
  - intros tower Hin. cbn [new_tower Tower.id]. apply next_id_gt.
    now apply in_map.
  - intros Hnk. unfold get_tower. cbn [towers users].
    destruct (tower_query_cases (towers d ++ [new_tower]) (Tower.id new_tower))
      as [[Hk' _] | [_ ->]]; [congruence |]. cbn [bind].
    rewrite find_snoc.
    assert (Hfresh : find (fun x0 => Z.eqb (Tower.id x0) (Tower.id new_tower))
                          (towers d) = None).
    { apply (find_by_key_none Tower.id). intros y Hy Heq.
      apply (next_id_fresh (map Tower.id (towers d))).
      cbn [new_tower Tower.id] in Heq. rewrite <- Heq. now apply in_map. }
    rewrite Hfresh, Z.eqb_refl, Hj. reflexivity.
Qed.

End Contracts.

(** ** The further properties at work on the sample stores *)

Section MoreSamples.

Local Open Scope R_scope.

Lemma two_users_reachable : reachable no_strings two_users_db.
Proof.
  exists (scenario ++ [PostUsers (user_body "C" "D" "c@d.com")]).
  rewrite run_snoc, scenario_runs. reflexivity.
Qed.

Lemma emails_unique_witness : NoDup (map User.email (users two_users_db)).
Proof. exact (emails_unique no_strings two_users_db two_users_reachable). Defined.

Lemma tower_owners_stored_witness :
  exists u, In u (users scenario_db) /\ User.id u = 1%Z.
Proof.
  apply (tower_owners_stored no_strings scenario_db scenario_reachable
           (Tower.Build 2 20 20 1)).
  right. now left.
Defined.

Lemma towers_in_range_witness : in_range 20 20.
Proof.
  apply (towers_in_range no_strings scenario_db scenario_reachable
           (Tower.Build 2 20 20 1)).
  right. now left.
Defined.

Lemma ids_count_from_one_witness :
  map Tower.id (towers scenario_db)
  = map Z.of_nat (seq 1 (List.length (towers scenario_db))).
Proof.
  exact (proj2 (ids_count_from_one no_strings scenario_db scenario_reachable)).
Defined.

Lemma fetched_rows_persist_witness :
  get_user
    (run no_strings (Build_db [sample_user] [])
       [PostTowers (tower_body (JFloat 10) (JFloat 10) 1);
        PostUsers (user_body "C" "D" "c@d.com")]) 1
  = Ok (User.to_dict sample_user, 200%Z).
Proof.
  apply (proj1 (fetched_rows_persist no_strings (Build_db [sample_user] []) _
                  1%Z (User.to_dict sample_user))).
  reflexivity.
Defined.

Lemma get_users_after_create_witness :
  exists js,
    get_users empty_db = Ok (JArr js, 200%Z)
    /\ get_users (snd (create_user empty_db (user_body "A" "B" "a@b.com")))
       = Ok (JArr (js ++ [User.to_dict sample_user]), 200%Z).
Proof.
  apply (get_users_after_create empty_db (user_body "A" "B" "a@b.com")).
  reflexivity.
Defined.

Lemma repeated_tower_conflicts_witness :
  let d := Build_db [sample_user] [] in
  let data := tower_body (JFloat 10) (JFloat 10) 1 in
  create_tower no_strings (snd (create_tower no_strings d data)) data
  = (Ok (error "Tower already exists within 1km" 400),
     snd (create_tower no_strings d data)).
Proof.
  intros d data.
  apply (repeated_tower_conflicts no_strings d data (owned_tower_json 1 10 10)).
  destruct scenario_steps as [_ [H2 _]].
  unfold d, data. rewrite H2. reflexivity.
Defined.

Lemma repeated_user_conflicts_witness :
  let data := user_body "A" "B" "a@b.com" in
  create_user (snd (create_user empty_db data)) data
  = (Ok (error "Email already exists" 400), snd (create_user empty_db data)).
Proof.
  intros data.
  apply (repeated_user_conflicts empty_db data (User.to_dict sample_user)).
  reflexivity.
Defined.

Lemma posts_keep_other_listing_witness :
  get_towers (snd (create_user scenario_db (user_body "C" "D" "c@d.com")))
  = Ok (JArr [owned_tower_json 1 10 10; owned_tower_json 2 20 20], 200%Z).
Proof.
  apply (proj2 (posts_keep_other_listing no_strings scenario_db)).
  reflexivity.
Defined.

Lemma get_towers_lists_all_witness :
  exists js,
    get_towers scenario_db = Ok (JArr js, 200%Z)
    /\ Forall2 (fun tower j => Tower.to_dict (users scenario_db) tower = Ok j)
               (towers scenario_db) js.
Proof.
  exact (get_towers_lists_all no_strings scenario_db scenario_reachable).
Defined.

Lemma towers_of_user_among_all_witness :
  exists js,
    get_towers_by_user_id scenario_db 1 = Ok (JArr js, 200%Z)
    /\ incl js [owned_tower_json 1 10 10; owned_tower_json 2 20 20].
Proof.
  apply (towers_of_user_among_all scenario_db 1).
  - reflexivity.
  - reflexivity.
Defined.

Lemma tower_json_embeds_owner_witness :
  json_field "id" (owned_tower_json 2 20 20) = Some (JInt 2)
  /\ exists uid ju,
       json_field "user_id" (owned_tower_json 2 20 20) = Some (JInt uid)
       /\ json_field "user" (owned_tower_json 2 20 20) = Some ju
       /\ get_user scenario_db uid = Ok (ju, 200%Z).
Proof.
  apply (tower_json_embeds_owner scenario_db 2 (owned_tower_json 2 20 20)).
  reflexivity.
Defined.

Lemma to_dict_injective_witness :
  Tower.Build 2 20 20 1 = Tower.Build 2 20 20 1.
Proof.
  apply (proj2 to_dict_injective (users scenario_db) _ _
           (owned_tower_json 2 20 20)); reflexivity.
Defined.

Lemma latitude_gap_is_far_witness : far sample_tower 1 50.
Proof.
  apply latitude_gap_is_far; cbn [sample_tower Tower.latitude].
  - split; lra.
  - split; lra.
  - rewrite Rabs_pos_eq by lra. lra.
Defined.

Lemma scan_order_independent_witness :
  tower_within_1km [Tower.Build 1 10 10 1; Tower.Build 2 20 20 1] 0 0
  = tower_within_1km [Tower.Build 2 20 20 1; Tower.Build 1 10 10 1] 0 0.
Proof.
  apply scan_order_independent. apply perm_swap.
Defined.

Lemma coordinates_accepted_iff_witness :
  parse_coordinates no_strings
    (TowerData.Build (Some (JInt 90)) (Some (JInt (-180))) (Some 1%Z))
  = Ok (inr (90, -180)).
Proof.
  apply (proj2 (coordinates_accepted_iff no_strings (JInt 90) (JInt (-180))
                  1%Z 90 (-180))).
  split; [reflexivity | split; [reflexivity |]].
  unfold in_range. repeat split; lra.
Defined.

Lemma coordinate_messages_witness :
  create_tower no_strings scenario_db (tower_body JNull (JInt 500) 1)
  = (Ok (error "Latitude and longitude must be numbers" 400), scenario_db).
Proof.
  apply (proj1 (coordinate_messages no_strings scenario_db JNull (JInt 500) 1)).
  left. right. reflexivity.
Defined.

Lemma fetch_by_id_of_64_bits_witness :
  (exists owner,
      In owner (users scenario_db) /\ User.id owner = 1%Z
      /\ get_tower scenario_db 2
         = Ok (tower_json_spec owner (Tower.Build 2 20 20 1), 200%Z))
  /\ get_tower scenario_db 3 = Ok (error_json_spec "Tower not found", 404%Z)
  /\ get_user scenario_db 1 = Ok (user_json_spec sample_user, 200%Z)
  /\ get_user scenario_db 2 = Ok (error_json_spec "User not found", 404%Z).
Proof.
  destruct (fetch_by_id_of_64_bits no_strings scenario_db scenario_reachable)
    as [Htower [Hnotower [Huser Hnouser]]].
  repeat apply conj.
  - apply (Htower (Tower.Build 2 20 20 1)); [right; now left | reflexivity].
  - apply (Hnotower 3%Z); [reflexivity |].
    intros tower [<- | [<- | []]]; discriminate.
  - apply (Huser sample_user); [now left | reflexivity].
  - apply (Hnouser 2%Z); [reflexivity |].
    intros u [<- | []]. discriminate.
Defined.

Lemma towers_of_user_listed_witness :
  get_towers_by_user_id scenario_db 1
  = Ok (JArr (map (tower_json_spec sample_user)
                  (filter (fun x => Z.eqb (Tower.user_id x) 1)
                          (towers scenario_db))),
        200%Z).
Proof.
  apply (proj1 (towers_of_user_listed no_strings scenario_db 1
                  scenario_reachable eq_refl) sample_user).
  - now left.
  - reflexivity.
Defined.


Lemma create_tower_early_answers_witness :
  create_tower no_strings scenario_db (tower_body (JFloat 10) (JFloat 10) 999)
  = (Ok (error_json_spec "User not found", 404%Z), scenario_db).
Proof.
  apply (proj2 (create_tower_early_answers no_strings scenario_db)
           (JFloat 10) (JFloat 10) 999%Z 10 10).
  - reflexivity.
  - reflexivity.
  - unfold in_range. repeat split; lra.
  - reflexivity.
  - intros u [<- | []]. discriminate.
Defined.

Lemma same_coordinates_conflict_witness :
  create_tower no_strings scenario_db (tower_body (JFloat 20) (JFloat 20) 1)
  = (Ok (error_json_spec "Tower already exists within 1km", 400%Z),
     scenario_db).
Proof.
  apply (same_coordinates_conflict no_strings scenario_db (JFloat 20)
           (JFloat 20) 1%Z sample_user (Tower.Build 2 20 20 1)
           scenario_reachable).
  - reflexivity.
  - reflexivity.
  - now left.
  - reflexivity.
  - reflexivity.
  - right. now left.
Defined.

Lemma create_tower_succeeds_with_gap_witness :
  exists new_tower,
    create_tower no_strings scenario_db (tower_body (JFloat 30) (JFloat 30) 1)
    = (Ok (tower_json_spec sample_user new_tower, 201%Z),
       Build_db (users scenario_db) (towers scenario_db ++ [new_tower]))
    /\ Tower.latitude new_tower = 30
    /\ Tower.longitude new_tower = 30
    /\ Tower.user_id new_tower = 1%Z
    /\ (forall tower, In tower (towers scenario_db) ->
          (Tower.id tower < Tower.id new_tower)%Z)
    /\ (int64 (Tower.id new_tower) = true ->
        get_tower (Build_db (users scenario_db)
                            (towers scenario_db ++ [new_tower]))
                  (Tower.id new_tower)
        = Ok (tower_json_spec sample_user new_tower, 200%Z)).
Proof.
  apply (create_tower_succeeds_with_gap no_strings scenario_db (JFloat 30)
           (JFloat 30) 1%Z 30 30 sample_user scenario_reachable).
  - reflexivity.
  - reflexivity.
  - unfold in_range. repeat split; lra.
  - now left.
  - reflexivity.
  - reflexivity.
  - intros tower [<- | [<- | []]]; cbn [Tower.latitude];
      rewrite Rabs_pos_eq by lra; lra.
Defined.

End MoreSamples.
